(** * image_processor.py: framed artwork and perspective mockups

    A shallow embedding of [src/image_processor.py] and the properties of
    its image pipeline: cover-fit resize and crop, the 8x8 perspective
    system and its solution, the multiply blend, the bordered canvas, and
    the orchestration of the three template composites over the file
    system.

    Conventions of the embedding:
    - Python integers are [Z]; [//] is [Z.div] (floor division).
    - Python floats ([target_w / ow], [ow * scale], the NumPy arrays of the
      multiply blend, the matrix and the coefficients of the perspective
      system) are IEEE binary64 values, computed with the Standard Library's
      [SpecFloat] operations at precision 53.
    - [np.linalg.solve] is a parameter ([Solver]): the bits it returns, and
      whether it reports a matrix as singular, depend on the order in which
      the LAPACK build at hand rounds.  [LinAlg.reference] is one solver,
      the elimination of reference LAPACK with every operation rounded.
    - Pillow's interpolation filters and its limit on the size of an image
      are parameters ([Resampler]).
    - The operating system is a parameter ([Host]): which file a path names,
      and whether a file can be written or removed there.
    - Exceptions are an [outcome]; the file system and standard output are
      threaded through a state monad. *)

From Stdlib Require Import ZArith List Lia Bool Ascii String.
From Stdlib Require Import QArith Qcanon Field.
From Stdlib Require Import SpecFloat.
From stdpp Require Import gmap strings pretty.
Import ListNotations.

Local Open Scope Z_scope.

(** ** Exceptions *)

Inductive exn :=
| ZeroDivisionError
| OverflowError
| ValueError (msg : string)
| IndexError
| LinAlgError
| FileNotFoundError (path : string)
| PermissionError (path : string)
| UnidentifiedImageError (path : string).

(** The exceptions that are Python's [OSError] or a subclass of it. *)
Definition is_OSError (e : exn) : bool :=
  match e with
  | FileNotFoundError _ | PermissionError _ | UnidentifiedImageError _ => true
  | _ => false
  end.

Inductive outcome (A : Type) :=
| Ok (a : A)
| Raise (e : exn).
Arguments Ok {A} a.
Arguments Raise {A} e.

Definition obind {A B} (c : outcome A) (k : A -> outcome B) : outcome B :=
  match c with
  | Ok a => k a
  | Raise e => Raise e
  end.

Declare Scope outcome_scope.
Delimit Scope outcome_scope with outcome.
Notation "'let*' x ':=' c 'in' k" := (obind c (fun x => k))
  (at level 10, x pattern, c at level 100, k at level 200) : outcome_scope.

(** [[f(x) for x in l]], stopping at the first exception. *)
Fixpoint omap {A B} (f : A -> outcome B) (l : list A) : outcome (list B) :=
  match l with
  | [] => Ok []
  | x :: l' => obind (f x) (fun y => obind (omap f l') (fun ys => Ok (y :: ys)))
  end.

(** ** Binary64 arithmetic, as Python and NumPy use it *)

Module Float64.

Definition prec : Z := 53.
Definition emax : Z := 1024.

(** [float(n)] for a Python integer: the nearest binary64 value. *)
Definition of_Z (n : Z) : spec_float := binary_normalize prec emax n 0 false.

(** An integer as an unrounded significand with exponent 0. *)
Definition raw (n : Z) : spec_float :=
  match n with
  | Z0 => S754_zero false
  | Zpos p => S754_finite false p 0
  | Zneg p => S754_finite true p 0
  end.

Definition add : spec_float -> spec_float -> spec_float := SFadd prec emax.
Definition sub : spec_float -> spec_float -> spec_float := SFsub prec emax.
Definition mul : spec_float -> spec_float -> spec_float := SFmul prec emax.
Definition div : spec_float -> spec_float -> spec_float := SFdiv prec emax.
Definition abs : spec_float -> spec_float := SFabs.
Definition ltb : spec_float -> spec_float -> bool := SFltb.

Definition zero : spec_float := S754_zero false.
Definition one : spec_float := of_Z 1.
Definition half : spec_float := S754_finite false (2 ^ 52) (-53).

Definition is_zero (x : spec_float) : bool :=
  match x with
  | S754_zero _ => true
  | _ => false
  end.

Definition is_finite (x : spec_float) : bool :=
  match x with
  | S754_zero _ | S754_finite _ _ _ => true
  | _ => false
  end.

(** A Python integer stored in a float64 array: too large a one is refused. *)
Definition of_int (n : Z) : outcome spec_float :=
  let f := of_Z n in
  if is_finite f then Ok f else Raise OverflowError.

(** Python's [a / b] on integers: the correctly rounded quotient. *)
Definition truediv (a b : Z) : outcome spec_float :=
  if b =? 0 then Raise ZeroDivisionError
  else
    let q := div (raw a) (raw b) in
    if is_finite q then Ok q else Raise OverflowError.

(** Python's [n * x] for an integer [n] and a float [x]. *)
Definition mul_int (n : Z) (x : spec_float) : outcome spec_float :=
  let f := of_Z n in
  if is_finite f then Ok (mul f x) else Raise OverflowError.

(** Python's [max(x, y)]: [y] when it is strictly larger, else [x]. *)
Definition max (x y : spec_float) : spec_float :=
  if SFltb x y then y else x.

(** Truncation toward zero of a finite value. *)
Definition trunc (x : spec_float) : Z :=
  match x with
  | S754_finite s m e =>
      let a := match e with
               | Zneg p => Z.pos m / 2 ^ Z.pos p
               | _ => Z.pos m * 2 ^ e
               end in
      if s then - a else a
  | _ => 0
  end.

(** Python's [int(x)]. *)
Definition to_int (x : spec_float) : outcome Z :=
  match x with
  | S754_nan => Raise (ValueError "cannot convert float NaN to integer")
  | S754_infinity _ => Raise OverflowError
  | _ => Ok (trunc x)
  end.

(** NumPy's [astype(np.uint8)] on a finite value. *)
Definition astype_uint8 (x : spec_float) : Z := trunc x mod 256.

(** The smallest positive normal number (LAPACK's [dlamch('S')]). *)
Definition sfmin : spec_float := S754_finite false (2 ^ 52) (-1074).

End Float64.

(** ** [np.linalg.solve] *)

(** [linalg_solve A B] is [np.linalg.solve(A, B)] for a float64 matrix [A]
    and an integer column [B]: the solution as floats, or an exception
    ([LinAlgError] when the factorisation meets a pivot that is exactly
    zero).  The result depends on how the LAPACK and BLAS build orders and
    rounds its operations, so the pipeline is stated for any solver. *)
Class Solver := {
  linalg_solve : list (list spec_float) -> list Z -> outcome (list spec_float)
}.

Module LinAlg.

Import Float64.

(** One equation: the coefficients from the current column on, and the
    right-hand side. *)
Definition row : Type := list spec_float * spec_float.

Definition lead (r : row) : spec_float := hd zero (fst r).

(** Index of the first row whose leading entry is largest in absolute
    value ([idamax]), searching from index [i]. *)
Fixpoint argmax (rows : list row) (i best : nat) (bv : spec_float) : nat :=
  match rows with
  | [] => best
  | r :: rest =>
      if ltb bv (abs (lead r))
      then argmax rest (S i) i (abs (lead r))
      else argmax rest (S i) best bv
  end.

(** Partial pivoting: the pivot row is exchanged with the first row; no
    pivot when the largest entry of the column is exactly zero. *)
Definition pivot (rows : list row) : option (row * list row) :=
  match rows with
  | [] => None
  | r0 :: rest =>
      match argmax rest 1 0 (abs (lead r0)) with
      | O => if is_zero (lead r0) then None else Some (r0, rest)
      | S k =>
          match rest !! k with
          | Some p => if is_zero (lead p) then None else Some (p, <[k := r0]> rest)
          | None => None
          end
      end
  end.

(** The multiplier of a row: its leading entry times the reciprocal of the
    pivot ([dscal] by [1 / pivot]), or divided by a pivot below [sfmin]. *)
Definition multiplier (piv x : spec_float) : spec_float :=
  if ltb (abs piv) sfmin then div x piv else mul x (div one piv).

(** [r - l * p], every product and difference rounded, with the first
    column dropped. *)
Definition eliminate (l : spec_float) (p r : row) : row :=
  (zip_with (fun a u => sub a (mul l u)) (tl (fst r)) (tl (fst p)),
   sub (snd r) (mul l (snd p))).

(** The unknown of the pivot row once the later unknowns [x'] are known:
    their terms are subtracted from the right-hand side from the last
    unknown back ([dtrsm] on the upper triangle), then the pivot divides. *)
Definition back (p : row) (x' : list spec_float) : spec_float :=
  div (fold_left (fun b ux => if is_zero (snd ux) then b else sub b (mul (snd ux) (fst ux)))
         (rev (zip (tl (fst p)) x')) (snd p))
      (lead p).

(** Elimination on the first unknown, the remaining system solved
    recursively, then the substitution for the first unknown. *)
Fixpoint gauss (n : nat) (rows : list row) : option (list spec_float) :=
  match n with
  | O => Some []
  | S n' =>
      match pivot rows with
      | None => None
      | Some (p, rest) =>
          match gauss n' (map (fun r => eliminate (multiplier (lead p) (lead r)) p r) rest) with
          | None => None
          | Some x' => Some (back p x' :: x')
          end
      end
  end.

(** The solver of reference LAPACK ([dgesv]: [dgetrf] then [dgetrs]) in
    binary64, every multiplication, subtraction and division rounded to
    nearest. *)
Definition reference : Solver := {|
  linalg_solve A B :=
    match gauss (length A) (zip A (map of_Z B)) with
    | Some x => Ok x
    | None => Raise LinAlgError
    end |}.

End LinAlg.

(** ** The perspective system over the rationals *)

(** The exact arithmetic the float64 solve approximates: integer rows read
    as rationals, used to say what the exact solution of a system is. *)
Module Exact.

Local Open Scope Qc_scope.

Definition of_int (z : Z) : Qc := Q2Qc (inject_Z z).

Fixpoint dot (u v : list Qc) : Qc :=
  match u, v with
  | a :: u', b :: v' => a * b + dot u' v'
  | _, _ => 0
  end.

(** [x] solves the equation with integer coefficients [r] and integer
    right-hand side [t]. *)
Definition satisfies (x : list Qc) (r : list Z) (t : Z) : Prop :=
  dot (map of_int r) x = of_int t.

(** [x] solves every equation of the system [matrix], [targets]. *)
Definition solves (x : list Qc) (matrix : list (list Z)) (targets : list Z) : Prop :=
  Forall2 (satisfies x) matrix targets.

End Exact.

(** ** Rasters *)

(** An RGB pixel: three 8-bit channels. *)
Definition pixel : Type := Z * Z * Z.

Definition white : pixel := (255, 255, 255).
Definition black : pixel := (0, 0, 0).

(** A 3-channel raster: its size and the colour at each coordinate.  Only
    the coordinates inside the size are meaningful. *)
Record Image := mkImage { im_w : Z; im_h : Z; im_px : Z -> Z -> pixel }.

Definition size (img : Image) : Z * Z := (im_w img, im_h img).

Definition in_bounds (w h x y : Z) : bool :=
  (0 <=? x) && (x <? w) && (0 <=? y) && (y <? h).

Definition valid_channel (c : Z) : Prop := 0 <= c <= 255.

Definition valid_pixel (p : pixel) : Prop :=
  let '(r, g, b) := p in valid_channel r /\ valid_channel g /\ valid_channel b.

(** An 8-bit image: every pixel inside the size has channels in 0..255. *)
Definition valid_image (img : Image) : Prop :=
  forall x y, in_bounds (im_w img) (im_h img) x y = true -> valid_pixel (im_px img x y).

(** Same size and same pixels inside it. *)
Definition same_image (a b : Image) : Prop :=
  size a = size b /\
  forall x y, in_bounds (im_w a) (im_h a) x y = true -> im_px a x y = im_px b x y.

(** What the pipeline takes from Pillow as given.
    [lanczos img w h x y] is pixel (x, y) of [img] resampled to [w] x [h];
    [bicubic_perspective img coeffs fill x y] is pixel (x, y) of the
    perspective transform of [img] with the 8 coefficients, [fill] where the
    source falls outside [img];
    [size_error w h] is the exception Pillow raises when it is asked to
    build an image of [w] x [h] pixels and refuses (a side beyond a C [int],
    a raster too large to allocate), if it does. *)
Class Resampler := {
  lanczos : Image -> Z -> Z -> Z -> Z -> pixel;
  bicubic_perspective : Image -> list spec_float -> pixel -> Z -> Z -> pixel;
  size_error : Z -> Z -> option exn
}.

(** ** The Pillow operations the script calls *)

Module PIL.

(** A new raster of [w] x [h], when Pillow accepts the size. *)
Definition alloc `{Resampler} (w h : Z) (px : Z -> Z -> pixel) : outcome Image :=
  match size_error w h with
  | Some e => Raise e
  | None => Ok (mkImage w h px)
  end.

(** [Image.new("RGB", (w, h), color)]. *)
Definition new `{Resampler} (sz : Z * Z) (color : pixel) : outcome Image :=
  let '(w, h) := sz in
  if (w <? 0) || (h <? 0) then Raise (ValueError "Width and height must be >= 0")
  else alloc w h (fun _ _ => color).

(** [img.copy()]. *)
Definition copy (img : Image) : Image := img.

(** [img.convert("RGB")] on a raster that is already RGB. *)
Definition convert_RGB (img : Image) : Image := img.

(** [img.resize((w, h), Image.LANCZOS)]: a copy when the size is unchanged;
    Pillow refuses a size with a side below one pixel. *)
Definition resize `{Resampler} (img : Image) (sz : Z * Z) : outcome Image :=
  let '(w, h) := sz in
  if (im_w img =? w) && (im_h img =? h) then Ok (copy img)
  else if (w <? 1) || (h <? 1) then Raise (ValueError "height and width must be > 0")
  else alloc w h (lanczos img w h).

(** [img.crop((left, upper, right, lower))]: the box as a new image, black
    where the box leaves the image. *)
Definition crop `{Resampler} (img : Image) (box : Z * Z * Z * Z) : outcome Image :=
  let '(x0, y0, x1, y1) := box in
  if x1 <? x0 then Raise (ValueError "Coordinate 'right' is less than 'left'")
  else if y1 <? y0 then Raise (ValueError "Coordinate 'lower' is less than 'upper'")
  else alloc (x1 - x0) (y1 - y0)
         (fun x y =>
            if in_bounds (im_w img) (im_h img) (x + x0) (y + y0)
            then im_px img (x + x0) (y + y0) else black).

(** [canvas.paste(img, (x0, y0))]: the canvas with [img] written over the
    box whose upper left corner is (x0, y0). *)
Definition paste (canvas img : Image) (at_ : Z * Z) : Image :=
  let '(x0, y0) := at_ in
  mkImage (im_w canvas) (im_h canvas)
    (fun x y =>
       if in_bounds (im_w img) (im_h img) (x - x0) (y - y0)
       then im_px img (x - x0) (y - y0) else im_px canvas x y).

(** [img.transform((w, h), Image.PERSPECTIVE, coeffs, Image.BICUBIC,
    fillcolor=fill)]. *)
Definition transform `{Resampler} (img : Image) (sz : Z * Z) (coeffs : list spec_float)
    (fill : pixel) : outcome Image :=
  let '(w, h) := sz in
  if (w <? 0) || (h <? 0) then Raise (ValueError "Width and height must be >= 0")
  else alloc w h (bicubic_perspective img coeffs fill).

End PIL.

(** ** Utility functions of the script *)

Local Open Scope outcome_scope.

(** [resize_cover(img, target_w, target_h)]. *)
Definition resize_cover `{Resampler} (img : Image) (target_w target_h : Z) : outcome Image :=
  let '(ow, oh) := size img in
  let* scale_w := Float64.truediv target_w ow in
  let* scale_h := Float64.truediv target_h oh in
  let scale := Float64.max scale_w scale_h in
  let* fw := Float64.mul_int ow scale in
  let* new_w := Float64.to_int fw in
  let* fh := Float64.mul_int oh scale in
  let* new_h := Float64.to_int fh in
  let img_copy := PIL.copy img in
  let* img_copy := PIL.resize img_copy (new_w, new_h) in
  let left := (new_w - target_w) / 2 in
  let top := (new_h - target_h) / 2 in
  let right := left + target_w in
  let bottom := top + target_h in
  PIL.crop img_copy (left, top, right, bottom).

(** One channel of the multiply blend: both operands divided by 255.0,
    multiplied, scaled by 255 and cast to [np.uint8]. *)
Definition blend_channel (a b : Z) : Z :=
  let base := Float64.div (Float64.of_Z a) (Float64.of_Z 255) in
  let overlay := Float64.div (Float64.of_Z b) (Float64.of_Z 255) in
  let multiplied := Float64.mul base overlay in
  Float64.astype_uint8 (Float64.mul multiplied (Float64.of_Z 255)).

Definition blend_pixel (p q : pixel) : pixel :=
  let '(r1, g1, b1) := p in
  let '(r2, g2, b2) := q in
  (blend_channel r1 r2, blend_channel g1 g2, blend_channel b1 b2).

(** NumPy broadcasting of one axis: equal lengths, or one of them is 1. *)
Definition broadcast_axis (a b : Z) : option Z :=
  if a =? b then Some a
  else if a =? 1 then Some b
  else if b =? 1 then Some a
  else None.

(** The shape NumPy prints for the array of an RGB image. *)
Definition shape_str (img : Image) : string :=
  "(" +:+ pretty (im_h img) +:+ "," +:+ pretty (im_w img) +:+ ",3)".

(** Broadcasting of the two image arrays, of shapes (h, w, 3). *)
Definition broadcast (base_img overlay_img : Image) : outcome (Z * Z) :=
  match broadcast_axis (im_h base_img) (im_h overlay_img),
        broadcast_axis (im_w base_img) (im_w overlay_img) with
  | Some h, Some w => Ok (w, h)
  | _, _ =>
      Raise (ValueError ("operands could not be broadcast together with shapes " +:+
                         shape_str base_img +:+ " " +:+ shape_str overlay_img +:+ " "))
  end.

(** The index read on an axis of length [n] when it is broadcast. *)
Definition bidx (n i : Z) : Z := if n =? 1 then 0 else i.

(** [apply_multiply_blend(base_img, overlay_img)]. *)
Definition apply_multiply_blend (base_img overlay_img : Image) : outcome Image :=
  let* (w, h) := broadcast base_img overlay_img in
  Ok (mkImage w h
        (fun x y =>
           blend_pixel
             (im_px base_img (bidx (im_w base_img) x) (bidx (im_h base_img) y))
             (im_px overlay_img (bidx (im_w overlay_img) x) (bidx (im_h overlay_img) y)))).

(** [seq[i]] on a tuple of integers. *)
Definition item (l : list Z) (i : nat) : outcome Z :=
  match l !! i with
  | Some v => Ok v
  | None => Raise IndexError
  end.

(** The two rows [find_perspective_coeffs] appends for one correspondence
    (x, y) -> (X, Y). *)
Definition correspondence_rows (x y X Y : Z) : list (list Z) :=
  [ [x; y; 1; 0; 0; 0; - X * x; - X * y];
    [0; 0; 0; x; y; 1; - Y * x; - Y * y] ].

(** The loop [for i in range(4)] that fills [matrix]. *)
Fixpoint build_matrix (source_corners dest_corners : list Z) (range : list nat)
    : outcome (list (list Z)) :=
  match range with
  | [] => Ok []
  | i :: range' =>
      let* x := item source_corners (2 * i) in
      let* y := item source_corners (2 * i + 1) in
      let* X := item dest_corners (2 * i) in
      let* Y := item dest_corners (2 * i + 1) in
      let* matrix := build_matrix source_corners dest_corners range' in
      Ok (correspondence_rows x y X Y ++ matrix)
  end.

(** [np.matrix(matrix, dtype=np.float64)]: every entry as the nearest
    float. *)
Definition float64_matrix (matrix : list (list Z)) : outcome (list (list spec_float)) :=
  omap (omap Float64.of_int) matrix.

(** [np.array(dest_corners).reshape(8, 1)]. *)
Definition reshape_8_1 (dest_corners : list Z) : outcome (list Z) :=
  if Nat.eqb (length dest_corners) 8 then Ok dest_corners
  else Raise (ValueError ("cannot reshape array of size " +:+ pretty (length dest_corners) +:+
                          " into shape (8,1)")).

(** [find_perspective_coeffs(source_corners, dest_corners)]. *)
Definition find_perspective_coeffs `{Solver} (source_corners dest_corners : list Z)
    : outcome (list spec_float) :=
  let* matrix := build_matrix source_corners dest_corners (seq 0 4) in
  let* A := float64_matrix matrix in
  let* B := reshape_8_1 dest_corners in
  linalg_solve A B.

(** ** The file system and standard output *)

(** A file holds a decodable raster (with the DPI tag it was saved with, if
    any) or something that is not an image. *)
Inductive file :=
| ImageFile (img : Image) (dpi : option (Z * Z))
| OtherFile.

Inductive event :=
| Printed (line : string)
| Opened (path : string)
| Saved (path : string)
| Removed (path : string).

(** What the pipeline takes from the operating system as given.
    [realpath p] identifies the file the path [p] names: two paths name the
    same file exactly when their [realpath] is the same;
    [save_error p] is the exception raised when a file cannot be created or
    replaced at [p] (no such folder, no permission), if it cannot;
    [remove_error p] is the exception raised when the file at [p] cannot be
    removed, if it cannot. *)
Class Host := {
  realpath : string -> string;
  save_error : string -> option exn;
  remove_error : string -> option exn
}.

(** The files, by the identity [realpath] gives them, and what has been
    printed and done to the files so far. *)
Record world := mkWorld { fs : gmap string file; events : list event }.

(** A computation: it reads and changes the world, and returns or raises. *)
Definition M (A : Type) : Type := world -> outcome A * world.

Definition ret {A} (a : A) : M A := fun w => (Ok a, w).

Definition raise {A} (e : exn) : M A := fun w => (Raise e, w).

Definition bind {A B} (c : M A) (k : A -> M B) : M B :=
  fun w =>
    match c w with
    | (Ok a, w') => k a w'
    | (Raise e, w') => (Raise e, w')
    end.

Definition lift {A} (o : outcome A) : M A := fun w => (o, w).

(** [try: c except E as e: h e], for the exceptions [E] that [catches]
    accepts. *)
Definition try_except {A} (catches : exn -> bool) (c : M A) (h : exn -> M A) : M A :=
  fun w =>
    match c w with
    | (Ok a, w') => (Ok a, w')
    | (Raise e, w') => if catches e then h e w' else (Raise e, w')
    end.

(** [except Exception]: every exception of the model. *)
Definition Exception (e : exn) : bool := true.

Declare Scope M_scope.
Delimit Scope M_scope with M.
Notation "'let!' x ':=' c 'in' k" := (bind c (fun x => k))
  (at level 10, x pattern, c at level 100, k at level 200) : M_scope.

Definition emit (e : event) : M unit :=
  fun w => (Ok tt, mkWorld (fs w) (events w ++ [e])).

Definition print (line : string) : M unit := emit (Printed line).

(** The file the path names, if there is one. *)
Definition file_at `{Host} (w : world) (path : string) : option file :=
  fs w !! realpath path.

Module os.

(** [os.path.join(a, b)] on POSIX paths. *)
Definition path_join (a b : string) : string :=
  if String.prefix "/" b then b
  else if String.eqb a "" then b
  else if String.eqb (String.substring (String.length a - 1) 1 a) "/" then a +:+ b
  else a +:+ "/" +:+ b.

(** The part of [p] after its last slash, if it has one. *)
Fixpoint after_last_slash (p : string) : option string :=
  match p with
  | EmptyString => None
  | String c r =>
      match after_last_slash r with
      | Some t => Some t
      | None => if Ascii.eqb c "/" then Some r else None
      end
  end.

(** [os.path.basename(p)]. *)
Definition path_basename (p : string) : string :=
  match after_last_slash p with
  | Some t => t
  | None => p
  end.

(** [os.path.exists(p)]. *)
Definition path_exists `{Host} (p : string) : M bool :=
  fun w => (Ok (match file_at w p with Some _ => true | None => false end), w).

(** [os.remove(p)]. *)
Definition remove `{Host} (p : string) : M unit :=
  fun w =>
    match file_at w p with
    | None => (Raise (FileNotFoundError p), w)
    | Some _ =>
        match remove_error p with
        | Some e => (Raise e, w)
        | None => (Ok tt, mkWorld (delete (realpath p) (fs w)) (events w ++ [Removed p]))
        end
    end.

End os.

(** [str(e)] for the exceptions of the model. *)
Definition exn_str (e : exn) : string :=
  match e with
  | ZeroDivisionError => "division by zero"
  | OverflowError => "cannot convert float infinity to integer"
  | ValueError msg => msg
  | IndexError => "tuple index out of range"
  | LinAlgError => "Singular matrix"
  | FileNotFoundError p => "[Errno 2] No such file or directory: '" +:+ p +:+ "'"
  | PermissionError p => "[Errno 13] Permission denied: '" +:+ p +:+ "'"
  | UnidentifiedImageError p => "cannot identify image file '" +:+ p +:+ "'"
  end.

(** [Image.open(path)], decoded. *)
Definition Image_open `{Host} (path : string) : M Image :=
  fun w =>
    let w' := mkWorld (fs w) (events w ++ [Opened path]) in
    match file_at w path with
    | Some (ImageFile img _) => (Ok img, w')
    | Some OtherFile => (Raise (UnidentifiedImageError path), w')
    | None => (Raise (FileNotFoundError path), w')
    end.

(** [img.save(path, "PNG", dpi=...)]: PNG is lossless, the file holds the
    raster as it is. *)
Definition Image_save `{Host} (img : Image) (path : string) (dpi : option (Z * Z)) : M unit :=
  fun w =>
    match save_error path with
    | Some e => (Raise e, w)
    | None =>
        (Ok tt,
         mkWorld (<[realpath path := ImageFile img dpi]> (fs w)) (events w ++ [Saved path]))
    end.

Local Open Scope M_scope.

(** [apply_perspective_transform(img, target_w, target_h, dest_corners)];
    [None] is Python's [None]. *)
Definition apply_perspective_transform `{Solver} `{Resampler} (img : Image)
    (target_w target_h : Z) (dest_corners : list Z) : M (option Image) :=
  let '(ow, oh) := size img in
  let source_corners := [0; 0; ow; 0; ow; oh; 0; oh] in
  match find_perspective_coeffs source_corners dest_corners with
  | Raise LinAlgError =>
      let! _ := print "Error: Could not calculate perspective matrix. Check for impossible geometry." in
      ret None
  | Raise e => raise e
  | Ok coeffs =>
      let! warped := lift (PIL.transform img (target_w, target_h) coeffs white) in
      ret (Some warped)
  end.

(** [delete_file(filepath)]. *)
Definition delete_file `{Host} (filepath : string) : M unit :=
  let! found := os.path_exists filepath in
  if found then
    try_except is_OSError
      (let! _ := os.remove filepath in
       print ("[SUCCESS] Successfully deleted " +:+ filepath))
      (fun e =>
         print ("[ERROR] Error: " +:+ filepath +:+ " could not be deleted. " +:+ exn_str e))
  else
    print ("[WARNING] File not found: " +:+ filepath).

(** [create_bordered_image(fg_img, input_folder)]. *)
Definition create_bordered_image `{Resampler} `{Host} (fg_img : Image)
    (input_folder : string) : M unit :=
  let bordered_output_path := os.path_join input_folder "print.png" in
  let output_path := os.path_join input_folder "output.png" in
  let '(canvas_w, canvas_h) := (3900, 5700) in
  let! canvas := lift (PIL.new (canvas_w, canvas_h) white) in
  let '(box1_w, box1_h) := (3660, 5460) in
  let fluorescent_green : pixel := (57, 255, 20) in
  let! box1 := lift (PIL.new (box1_w, box1_h) fluorescent_green) in
  let box1_x := (canvas_w - box1_w) / 2 in
  let box1_y := (canvas_h - box1_h) / 2 in
  let canvas := PIL.paste canvas box1 (box1_x, box1_y) in
  let '(box2_w, box2_h) := (3567, 5374) in
  let! img_final := lift (resize_cover fg_img box2_w box2_h) in
  let box2_x := (canvas_w - box2_w) / 2 in
  let box2_y := (canvas_h - box2_h) / 2 in
  let canvas := PIL.paste canvas img_final (box2_x, box2_y) in
  let! _ := Image_save img_final output_path None in
  let desired_dpi := (300, 300) in
  let! _ := Image_save canvas bordered_output_path (Some desired_dpi) in
  let! _ := print ("[SUCCESS] Saved bordered image: " +:+ bordered_output_path) in
  print ("[SUCCESS] Saved centered artwork: " +:+ output_path).

(** Python's truth value of the [resize_flag] argument ([None] by default). *)
Definition truthy (flag : option bool) : bool :=
  match flag with
  | Some b => b
  | None => false
  end.

(** [create_multiplied_image(fg_img, show_image_path, output_path,
    dest_corners, resize_flag)]. *)
Definition create_multiplied_image `{Solver} `{Resampler} `{Host} (fg_img : Image)
    (show_image_path output_path : string) (dest_corners : list Z)
    (resize_flag : option bool) : M bool :=
  let! fg_img :=
    lift (if negb (truthy resize_flag)
          then PIL.resize fg_img (1071, 1500)
          else PIL.resize fg_img (393, 654)) in
  let! base_img := Image_open show_image_path in
  let base_img := PIL.convert_RGB base_img in
  let '(base_w, base_h) := size base_img in
  let target_w := base_w in
  let target_h := base_h in
  let! fg_perspectived := apply_perspective_transform fg_img target_w target_h dest_corners in
  match fg_perspectived with
  | None =>
      let! _ := print ("[ERROR] Failed to apply perspective transform for " +:+ output_path) in
      ret false
  | Some fg_perspectived =>
      let! overlay_canvas := lift (PIL.new (base_w, base_h) white) in
      let overlay_canvas := PIL.paste overlay_canvas fg_perspectived (0, 0) in
      let! final_image := lift (apply_multiply_blend base_img overlay_canvas) in
      let! _ := Image_save final_image output_path None in
      let! _ := print ("[SUCCESS] Saved multiplied image: " +:+ output_path) in
      ret true
  end.

Definition DEST_COORDINATES : list Z := [-322; -320; 650; -320; 670; 975; -370; 985].
Definition DEST_COORDINATES2 : list Z := [-196; -115; 165; -178; 170; 498; -195; 519].
Definition DEST_COORDINATES3 : list Z := [-415; -529; 695; -519; 718; 955; -495; 960].

(** The loop over the three template paths: the first missing one, if any. *)
Fixpoint check_templates `{Host} (paths : list string) : M (option string) :=
  match paths with
  | [] => ret None
  | template_path :: paths' =>
      let! found := os.path_exists template_path in
      if negb found then
        let! _ := print ("[ERROR] Missing template file: " +:+ template_path) in
        let! _ := print "Please ensure show.png, show2.jpg, and show3.png are in the script directory." in
        ret (Some template_path)
      else check_templates paths'
  end.

(** One template: the composite is attempted and its path recorded when it
    succeeds ([if create_multiplied_image(...): output_files.append(...)]). *)
Definition composite_step `{Solver} `{Resampler} `{Host} (centered_artwork : Image)
    (show_image_path multiplied_output_path : string) (dest : list Z)
    (resize_flag : option bool) (output_files : list string) : M (list string) :=
  let! done := create_multiplied_image centered_artwork show_image_path
                 multiplied_output_path dest resize_flag in
  ret (if done then output_files ++ [multiplied_output_path] else output_files).

(** The body of [process_image], with the three destination tables as
    parameters. *)
Definition process_image_with `{Solver} `{Resampler} `{Host} (dest1 dest2 dest3 : list Z)
    (input_path output_folder script_dir : string) : M (bool * list string * string) :=
  let show_image_path := os.path_join script_dir "show.png" in
  let show_image_path2 := os.path_join script_dir "show2.jpg" in
  let show_image_path3 := os.path_join script_dir "show3.png" in
  let! missing := check_templates [show_image_path; show_image_path2; show_image_path3] in
  match missing with
  | Some template_path => ret (false, [], "Missing template file: " +:+ template_path)
  | None =>
      let! loaded :=
        try_except Exception
          (let! fg_img := Image_open input_path in
           let fg_img := PIL.convert_RGB fg_img in
           let! _ := print ("[INFO] Processing: " +:+ os.path_basename input_path) in
           ret (inl fg_img))
          (fun e =>
             let! _ := print ("[ERROR] Error opening image " +:+ input_path +:+ ": " +:+ exn_str e) in
             ret (inr ("Error opening image: " +:+ exn_str e))) in
      match loaded with
      | inr msg => ret (false, [], msg)
      | inl fg_img =>
          let! _ := create_bordered_image fg_img output_folder in
          let output_png_path := os.path_join output_folder "output.png" in
          let! found := os.path_exists output_png_path in
          if negb found then
            let! _ := print ("[ERROR] Missing intermediate file: " +:+ output_png_path) in
            ret (false, [], "Missing intermediate file: " +:+ output_png_path)
          else
            let! centered_artwork := Image_open output_png_path in
            let centered_artwork := PIL.convert_RGB centered_artwork in
            let output_files : list string := [] in
            let! output_files :=
              composite_step centered_artwork show_image_path
                (os.path_join output_folder "show.png") dest1 None output_files in
            let! output_files :=
              composite_step centered_artwork show_image_path2
                (os.path_join output_folder "show2.png") dest2 (Some true) output_files in
            let! output_files :=
              composite_step centered_artwork show_image_path3
                (os.path_join output_folder "show3.png") dest3 None output_files in
            let! _ := delete_file output_png_path in
            if (0 <? Z.of_nat (length output_files))
            then ret (true, output_files, "")
            else ret (false, [], "Failed to create any output images")
      end
  end.

(** [process_image(input_path, output_folder, script_dir)]. *)
Definition process_image `{Solver} `{Resampler} `{Host}
    (input_path output_folder script_dir : string) : M (bool * list string * string) :=
  process_image_with DEST_COORDINATES DEST_COORDINATES2 DEST_COORDINATES3
    input_path output_folder script_dir.

(** [create_multiplied_image] as the pipeline's description has it: the
    warped foreground is blended onto the template directly, without the
    intermediate white canvas.  It is the reference the function above is
    compared with. *)
Definition create_multiplied_image_direct `{Solver} `{Resampler} `{Host} (fg_img : Image)
    (show_image_path output_path : string) (dest_corners : list Z)
    (resize_flag : option bool) : M bool :=
  let! fg_img :=
    lift (if negb (truthy resize_flag)
          then PIL.resize fg_img (1071, 1500)
          else PIL.resize fg_img (393, 654)) in
  let! base_img := Image_open show_image_path in
  let base_img := PIL.convert_RGB base_img in
  let '(base_w, base_h) := size base_img in
  let! fg_perspectived := apply_perspective_transform fg_img base_w base_h dest_corners in
  match fg_perspectived with
  | None =>
      let! _ := print ("[ERROR] Failed to apply perspective transform for " +:+ output_path) in
      ret false
  | Some fg_perspectived =>
      let! final_image := lift (apply_multiply_blend base_img fg_perspectived) in
      let! _ := Image_save final_image output_path None in
      let! _ := print ("[SUCCESS] Saved multiplied image: " +:+ output_path) in
      ret true
  end.

(** ** Observations on files and runs *)

(** Two files hold the same thing: the same raster with the same DPI tag. *)
Definition same_file (f g : option file) : Prop :=
  match f, g with
  | Some (ImageFile a da), Some (ImageFile b db) => same_image a b /\ da = db
  | Some OtherFile, Some OtherFile => True
  | None, None => True
  | _, _ => False
  end.

(** Two runs agree: the same return value or exception, the same events, and
    the same content in every file. *)
Definition same_run {A} (r1 r2 : outcome A * world) : Prop :=
  fst r1 = fst r2 /\
  events (snd r1) = events (snd r2) /\
  forall p, same_file (fs (snd r1) !! p) (fs (snd r2) !! p).

(** The colour a reader of the image file at [path] finds at (x, y). *)
Definition pixel_at `{Host} (w : world) (path : string) (x y : Z) : option pixel :=
  match file_at w path with
  | Some (ImageFile img _) => Some (im_px img x y)
  | _ => None
  end.

(** The file at [path] decodes to an image. *)
Definition is_image `{Host} (w : world) (path : string) : bool :=
  match file_at w path with
  | Some (ImageFile _ _) => true
  | _ => false
  end.

(** [c] leaves every file but those the [paths] name as it was, whatever
    it returns or raises.  Files are told apart by their real path. *)
Definition writes_only `{Host} {A} (paths : list string) (c : M A) : Prop :=
  forall w k, k ∉ map realpath paths -> fs (snd (c w)) !! k = fs w !! k.

(** ** A concrete solver, resampler and host, and sample inputs *)

(** Pillow's nearest-neighbour perspective sampling: the centre of the
    target pixel is mapped through the coefficients, in binary64, and the
    source pixel under it is read. *)
Definition nearest_perspective (img : Image) (coeffs : list spec_float) (fill : pixel)
    (x y : Z) : pixel :=
  match coeffs with
  | [a0; a1; a2; a3; a4; a5; a6; a7] =>
      let xin := Float64.add (Float64.of_Z x) Float64.half in
      let yin := Float64.add (Float64.of_Z y) Float64.half in
      let den := Float64.add (Float64.add (Float64.mul a6 xin) (Float64.mul a7 yin))
                   Float64.one in
      let xout := Float64.div (Float64.add (Float64.add (Float64.mul a0 xin)
                                             (Float64.mul a1 yin)) a2) den in
      let yout := Float64.div (Float64.add (Float64.add (Float64.mul a3 xin)
                                             (Float64.mul a4 yin)) a5) den in
      if Float64.is_finite xout && Float64.is_finite yout then
        let sx := if Float64.ltb xout Float64.zero then -1 else Float64.trunc xout in
        let sy := if Float64.ltb yout Float64.zero then -1 else Float64.trunc yout in
        if in_bounds (im_w img) (im_h img) sx sy then im_px img sx sy else fill
      else fill
  | _ => fill
  end.

(** Nearest-neighbour filters in place of Lanczos and bicubic, and no limit
    on the size of an image but the C [int] that holds a side. *)
Definition nearest_neighbour : Resampler := {|
  lanczos img w h x y :=
    im_px img ((2 * x + 1) * im_w img / (2 * w)) ((2 * y + 1) * im_h img / (2 * h));
  bicubic_perspective := nearest_perspective;
  size_error w h := if (2 ^ 31 <=? w) || (2 ^ 31 <=? h) then Some OverflowError else None |}.

(** A host on which every path names a file of its own and every write and
    removal goes through. *)
Definition plain_host : Host := {|
  realpath p := p;
  save_error _ := None;
  remove_error _ := None |}.

(** A host on which no file can be removed. *)
Definition read_only_host : Host := {|
  realpath p := p;
  save_error _ := None;
  remove_error p := Some (PermissionError p) |}.

(** A host on which the folder [out] does not exist. *)
Definition no_out_folder : Host := {|
  realpath p := p;
  save_error p := if String.prefix "out/" p then Some (FileNotFoundError p) else None;
  remove_error _ := None |}.

(** A raster of one colour. *)
Definition flat (w h : Z) (c : pixel) : Image := mkImage w h (fun _ _ => c).

(** A small gradient: every pixel differs from its neighbours. *)
Definition gradient (w h : Z) : Image := mkImage w h (fun x y => (x mod 256, y mod 256, 255)).

(** A folder [t] that holds the three templates and an input image: the
    script run on an image that lies next to it. *)
Definition script_folder : world :=
  mkWorld (<["t/in.png" := ImageFile (flat 49 49 (100, 100, 100)) None]>
          (<["t/show.png" := ImageFile (flat 400 400 (200, 200, 200)) None]>
          (<["t/show2.jpg" := ImageFile (flat 30 20 (200, 200, 200)) None]>
          (<["t/show3.png" := ImageFile (flat 40 40 (200, 200, 200)) None]> ∅)))) [].

(** The templates in [t], the input image in another folder [in]. *)
Definition two_folders : world :=
  mkWorld (<["in/a.png" := ImageFile (gradient 20 30) None]>
          (<["t/show.png" := ImageFile (flat 4 5 (200, 100, 50)) None]>
          (<["t/show2.jpg" := ImageFile (flat 6 7 (200, 100, 50)) None]>
          (<["t/show3.png" := ImageFile (flat 8 9 (200, 100, 50)) None]> ∅)))) [].

(** A folder [t] in which only the first template is present. *)
Definition one_template : world :=
  mkWorld (<["in/a.png" := ImageFile (gradient 20 30) None]>
          (<["t/show.png" := ImageFile (flat 4 5 (200, 100, 50)) None]> ∅)) [].

(** The two folders, with a second template that is no image. *)
Definition unreadable_second : world :=
  mkWorld (<["t/show2.jpg" := OtherFile]> (fs two_folders)) [].

(** * Properties *)

(** ** The multiply blend *)

(** The 256 channel values against white, both ways round, computed in
    binary64. *)
Lemma blend_channel_white_table :
  forallb (fun n => let a := Z.of_nat n in
                    (blend_channel a 255 =? a) && (blend_channel 255 a =? a))
          (seq 0 256) = true.
Proof. vm_compute. reflexivity. Qed.

Lemma blend_channel_white a :
  valid_channel a -> blend_channel a 255 = a /\ blend_channel 255 a = a.
Proof.
  intros [Hlo Hhi].
  pose proof (proj1 (forallb_forall _ _) blend_channel_white_table (Z.to_nat a)) as Ht.
  cbv beta zeta in Ht. rewrite Z2Nat.id in Ht by lia.
  assert (In (Z.to_nat a) (seq 0 256)) as Hin by (apply in_seq; lia).
  apply Ht in Hin. apply andb_true_iff in Hin as [H1 H2].
  apply Z.eqb_eq in H1, H2. done.
Qed.

Lemma blend_pixel_white p :
  valid_pixel p -> blend_pixel p white = p /\ blend_pixel white p = p.
Proof.
  destruct p as [[r g] b]. intros (Hr & Hg & Hb). unfold blend_pixel, white.
  destruct (blend_channel_white r Hr) as [-> ->].
  destruct (blend_channel_white g Hg) as [-> ->].
  destruct (blend_channel_white b Hb) as [-> ->]. done.
Qed.

Lemma broadcast_axis_same a : broadcast_axis a a = Some a.
Proof. unfold broadcast_axis. by rewrite Z.eqb_refl. Qed.

Lemma broadcast_same_size a b : size a = size b -> broadcast a b = Ok (im_w a, im_h a).
Proof.
  intros Hs. injection Hs as Hw Hh. unfold broadcast.
  by rewrite <- Hw, <- Hh, !broadcast_axis_same.
Qed.

Lemma bidx_in_range n i : 0 <= i < n -> bidx n i = i.
Proof. unfold bidx. destruct (Z.eqb_spec n 1); lia. Qed.

Lemma in_bounds_spec w h x y : in_bounds w h x y = true <-> 0 <= x < w /\ 0 <= y < h.
Proof. unfold in_bounds. rewrite !andb_true_iff, !Z.leb_le, !Z.ltb_lt. lia. Qed.

(** The blend of two rasters of one size, pixel by pixel. *)
Lemma apply_multiply_blend_same_size a b :
  size a = size b ->
  exists r, apply_multiply_blend a b = Ok r /\ size r = size a /\
            forall x y, in_bounds (im_w a) (im_h a) x y = true ->
                        im_px r x y = blend_pixel (im_px a x y) (im_px b x y).
Proof.
  intros Hs. unfold apply_multiply_blend. rewrite (broadcast_same_size a b Hs).
  injection Hs as Hw Hh. cbn [obind]. eexists. split; [reflexivity | ].
  split; [reflexivity | ]. intros x y Hb. cbn [im_px]. apply in_bounds_spec in Hb as [Hx Hy].
  rewrite <- Hw, <- Hh. by rewrite !bidx_in_range.
Qed.

(** ** Pasting a raster of the canvas' size at the origin *)

Lemma paste_full_canvas canvas img :
  size img = size canvas -> same_image (PIL.paste canvas img (0, 0)) img.
Proof.
  intros Hs. injection Hs as Hw Hh. unfold same_image, PIL.paste, size. simpl.
  split; [congruence | ]. intros x y Hb. rewrite !Z.sub_0_r, Hw, Hh, Hb. done.
Qed.

Lemma apply_multiply_blend_same_image base a b :
  same_image a b ->
  match apply_multiply_blend base a, apply_multiply_blend base b with
  | Ok r1, Ok r2 => same_image r1 r2
  | Raise e1, Raise e2 => e1 = e2
  | _, _ => False
  end.
Proof.
  intros [Hs Hpx]. injection Hs as Hw Hh. unfold apply_multiply_blend, broadcast, shape_str.
  rewrite <- Hw, <- Hh.
  destruct (broadcast_axis (im_h base) (im_h a)) as [h | ] eqn:Hbh; [ | done].
  destruct (broadcast_axis (im_w base) (im_w a)) as [w | ] eqn:Hbw; [ | done].
  cbn [obind]. split; [done | ]. cbn [im_px im_w im_h]. intros x y Hb. f_equal. apply Hpx.
  apply in_bounds_spec in Hb as [Hx Hy]. apply in_bounds_spec.
  unfold broadcast_axis in Hbh, Hbw. unfold bidx.
  destruct (Z.eqb_spec (im_h base) (im_h a)); destruct (Z.eqb_spec (im_w base) (im_w a));
    destruct (Z.eqb_spec (im_w a) 1); destruct (Z.eqb_spec (im_h a) 1);
    destruct (Z.eqb_spec (im_w base) 1); destruct (Z.eqb_spec (im_h base) 1);
    simplify_eq; lia.
Qed.

(** ** Sizes of the rasters Pillow returns *)

Section Sizes.

Context {R : Resampler}.

Lemma alloc_size w h px img : PIL.alloc w h px = Ok img -> size img = (w, h).
Proof. unfold PIL.alloc. destruct (size_error w h); [done | ]. by intros [= <-]. Qed.

Lemma alloc_accepted w h px img : PIL.alloc w h px = Ok img -> size_error w h = None.
Proof. unfold PIL.alloc. by destruct (size_error w h). Qed.


Lemma new_size w h color img : PIL.new (w, h) color = Ok img -> size img = (w, h).
Proof.
  unfold PIL.new. destruct ((w <? 0) || (h <? 0)); [done | ]. apply alloc_size.
Qed.


Lemma resize_size img w h img' :
  PIL.resize img (w, h) = Ok img' -> size img' = (w, h).
Proof.
  unfold PIL.resize.
  destruct ((im_w img =? w) && (im_h img =? h)) eqn:Hsame.
  - intros [= <-]. apply andb_true_iff in Hsame as [Hw Hh].
    apply Z.eqb_eq in Hw, Hh. unfold PIL.copy, size. congruence.
  - destruct ((w <? 1) || (h <? 1)); [done | ]. apply alloc_size.
Qed.

Lemma crop_size img x0 y0 x1 y1 img' :
  PIL.crop img (x0, y0, x1, y1) = Ok img' -> size img' = (x1 - x0, y1 - y0).
Proof.
  unfold PIL.crop. destruct (x1 <? x0); [done | ]. destruct (y1 <? y0); [done | ].
  apply alloc_size.
Qed.

Lemma transform_size img w h coeffs fill warped :
  PIL.transform img (w, h) coeffs fill = Ok warped -> size warped = (w, h).
Proof.
  unfold PIL.transform. destruct ((w <? 0) || (h <? 0)); [done | ]. apply alloc_size.
Qed.

(** A size [transform] accepted is one [new] accepts. *)
Lemma transform_then_new img w h coeffs fill warped color :
  PIL.transform img (w, h) coeffs fill = Ok warped ->
  PIL.new (w, h) color = Ok (mkImage w h (fun _ _ => color)).
Proof.
  unfold PIL.transform, PIL.new. destruct ((w <? 0) || (h <? 0)); [done | ].
  intros Ha. unfold PIL.alloc. by rewrite (alloc_accepted _ _ _ _ Ha).
Qed.

(** Whenever [resize_cover] returns, the result has the target size. *)
Lemma resize_cover_size img target_w target_h img' :
  resize_cover img target_w target_h = Ok img' -> size img' = (target_w, target_h).
Proof.
  unfold resize_cover, size. cbn [obind].
  destruct (Float64.truediv target_w (im_w img)) as [sw|]; cbn [obind]; [ | discriminate].
  destruct (Float64.truediv target_h (im_h img)) as [sh|]; cbn [obind]; [ | discriminate].
  destruct (Float64.mul_int (im_w img) _) as [fw|]; cbn [obind]; [ | discriminate].
  destruct (Float64.to_int fw) as [new_w|]; cbn [obind]; [ | discriminate].
  destruct (Float64.mul_int (im_h img) _) as [fh|]; cbn [obind]; [ | discriminate].
  destruct (Float64.to_int fh) as [new_h|]; cbn [obind]; [ | discriminate].
  destruct (PIL.resize (PIL.copy img) (new_w, new_h)) as [img_copy|]; cbn [obind];
    [ | discriminate].
  intros Hc. apply crop_size in Hc. unfold size in Hc. rewrite Hc. f_equal; lia.
Qed.

End Sizes.

(** ** Runs of the pipeline *)

Lemma bind_Ok {A B} (c : M A) (k : A -> M B) w a w' :
  c w = (Ok a, w') -> bind c k w = k a w'.
Proof. unfold bind. by intros ->. Qed.

Lemma bind_Raise {A B} (c : M A) (k : A -> M B) w e w' :
  c w = (Raise e, w') -> bind c k w = (Raise e, w').
Proof. unfold bind. by intros ->. Qed.

(** A computation that returns has run its first part to a return. *)
Lemma bind_inv {A B} (c : M A) (k : A -> M B) w b w' :
  bind c k w = (Ok b, w') -> exists a w1, c w = (Ok a, w1) /\ k a w1 = (Ok b, w').
Proof.
  unfold bind. destruct (c w) as [[a | e] w1]; [ | done]. intros Hk. by exists a, w1.
Qed.

Section Host.

Context {O : Host}.

Lemma path_exists_run p w :
  os.path_exists p w = (Ok (match file_at w p with Some _ => true | None => false end), w).
Proof. reflexivity. Qed.

Lemma Image_open_run path w img dpi :
  file_at w path = Some (ImageFile img dpi) ->
  Image_open path w = (Ok img, mkWorld (fs w) (events w ++ [Opened path])).
Proof. unfold Image_open. by intros ->. Qed.

(** The template check stops at the first missing path, prints two lines
    and touches nothing else. *)
Lemma check_templates_missing paths : forall w,
  (exists p, p ∈ paths /\ file_at w p = None) ->
  exists p, p ∈ paths /\ file_at w p = None /\
    check_templates paths w =
      (Ok (Some p),
       mkWorld (fs w)
         (events w ++
            [Printed ("[ERROR] Missing template file: " +:+ p);
             Printed "Please ensure show.png, show2.jpg, and show3.png are in the script directory."])).
Proof.
  induction paths as [|q paths IH]; intros w (p & Hin & Hp).
  - by apply elem_of_nil in Hin.
  - simpl. unfold bind at 1. rewrite path_exists_run.
    destruct (file_at w q) as [f|] eqn:Hq.
    + simpl. apply elem_of_cons in Hin as [-> | Hin]; [congruence | ].
      destruct (IH w (ex_intro _ p (conj Hin Hp))) as (p' & Hin' & Hp' & Hrun).
      exists p'. split; [apply elem_of_cons; by right | ]. done.
    + exists q. split; [apply elem_of_cons; by left | ]. split; [done | ].
      simpl. unfold bind, print, emit, ret. simpl. by rewrite <- app_assoc.
Qed.

Lemma check_templates_present paths : forall w,
  Forall (fun p => is_Some (file_at w p)) paths ->
  check_templates paths w = (Ok None, w).
Proof.
  induction paths as [|q paths IH]; intros w Hall; [reflexivity | ].
  apply Forall_cons in Hall as [[f Hq] Hall].
  simpl. unfold bind at 1. rewrite path_exists_run, Hq. simpl. by apply IH.
Qed.

Lemma is_image_spec w path :
  is_image w path = true -> exists img dpi, file_at w path = Some (ImageFile img dpi).
Proof.
  unfold is_image. destruct (file_at w path) as [[img dpi | ] | ]; try discriminate.
  by exists img, dpi.
Qed.

End Host.

(** ** The perspective system and its exact solution *)

Section ExactSolution.

Import Exact.

Local Open Scope Qc_scope.

Lemma of_int_0 : of_int 0 = 0.
Proof. reflexivity. Qed.

Lemma of_int_1 : of_int 1 = 1.
Proof. reflexivity. Qed.

Lemma of_int_mul a b : of_int (a * b) = of_int a * of_int b.
Proof.
  unfold of_int, Qcmult. apply Q2Qc_eq_iff. cbn [this Q2Qc].
  rewrite !Qred_correct, inject_Z_mult. reflexivity.
Qed.

Lemma of_int_add a b : of_int (a + b) = of_int a + of_int b.
Proof.
  unfold of_int, Qcplus. apply Q2Qc_eq_iff. cbn [this Q2Qc].
  rewrite !Qred_correct, inject_Z_plus. reflexivity.
Qed.

Lemma of_int_opp a : of_int (- a) = - of_int a.
Proof.
  unfold of_int, Qcopp. apply Q2Qc_eq_iff. cbn [this Q2Qc].
  rewrite !Qred_correct, inject_Z_opp. reflexivity.
Qed.

Lemma of_int_inj a b : of_int a = of_int b -> a = b.
Proof.
  unfold of_int. intros H. apply Q2Qc_eq_iff in H. exact (proj1 (inject_Z_injective a b) H).
Qed.

Lemma of_int_nonzero a : a <> 0%Z -> of_int a <> 0.
Proof. intros Ha H. apply Ha. apply of_int_inj. by rewrite of_int_0. Qed.

Ltac of_int_norm :=
  repeat first [ rewrite of_int_mul | rewrite of_int_opp | rewrite of_int_add
               | rewrite of_int_0 | rewrite of_int_1 ].

Ltac of_int_norm_in H :=
  repeat first [ rewrite of_int_mul in H | rewrite of_int_opp in H | rewrite of_int_add in H
               | rewrite of_int_0 in H | rewrite of_int_1 in H ].

Lemma Qc_cancel (x y : Qc) : x <> 0 -> x * y = 0 -> y = 0.
Proof. apply Qcmult_integral_l. Qed.

Lemma Qc_sub_0 (x y : Qc) : x - y = 0 -> x = y.
Proof. intros H. rewrite <- (Qcplus_0_r y), <- H. ring. Qed.

Lemma Qc_sub_same (w x : Qc) : w - x = w -> x = 0.
Proof. intros H. transitivity (w - (w - x)); [ring | rewrite H; ring]. Qed.

Lemma Qc_mul_same (w x : Qc) : w <> 0 -> w * x = w -> x = 1.
Proof.
  intros Hw H. apply Qc_sub_0. apply (Qc_cancel w); [done | ].
  transitivity (w * x - w); [ring | rewrite H; ring].
Qed.

(** The system of the identity correspondences of a W x H rectangle. *)
Lemma identity_system_unique (W H : Z) (x : list Qc) :
  W <> 0%Z -> H <> 0%Z -> length x = 8%nat ->
  solves x
    (correspondence_rows 0 0 0 0 ++ correspondence_rows W 0 W 0 ++
     correspondence_rows W H W H ++ correspondence_rows 0 H 0 H)
    [0; 0; W; 0; W; H; 0; H]%Z ->
  x = map of_int [1; 0; 0; 0; 1; 0; 0; 0]%Z.
Proof.
  intros HW HH Hlen Hsol.
  destruct x as [|a [|b [|c [|d [|e [|f [|g [|k [|]]]]]]]]]; try discriminate.
  unfold solves, correspondence_rows in Hsol. cbn [app] in Hsol.
  repeat (apply Forall2_cons_iff in Hsol as [?E Hsol]). clear Hsol.
  unfold satisfies in *. cbn [map dot] in *.
  apply of_int_nonzero in HW, HH.
  of_int_norm_in E. of_int_norm_in E0. of_int_norm_in E1. of_int_norm_in E2.
  of_int_norm_in E3. of_int_norm_in E4. of_int_norm_in E5. of_int_norm_in E6.
  set (ww := of_int W) in *. set (hh := of_int H) in *. clearbody ww hh.
  assert (c = 0) as -> by (rewrite <- E; ring).
  assert (f = 0) as -> by (rewrite <- E0; ring).
  assert (ww * d = 0) as F2 by (etransitivity; [ | exact E2]; ring).
  assert (hh * b = 0) as F5 by (etransitivity; [ | exact E5]; ring).
  apply Qc_cancel in F2, F5; [ | done | done]. subst d b.
  assert (ww * (a - ww * g) = ww) as F1 by (etransitivity; [ | exact E1]; ring).
  assert (ww * (a - ww * g) - ww * (hh * k) = ww) as F3
    by (etransitivity; [ | exact E3]; ring).
  assert (hh * (e - hh * k) = hh) as F6 by (etransitivity; [ | exact E6]; ring).
  assert (hh * (e - hh * k) - hh * (ww * g) = hh) as F4
    by (etransitivity; [ | exact E4]; ring).
  clear E E0 E1 E2 E3 E4 E5 E6.
  rewrite F1 in F3. rewrite F6 in F4.
  apply Qc_sub_same in F3, F4.
  apply Qc_cancel in F3, F4; [ | done | done].
  apply Qc_cancel in F3, F4; [ | done | done]. subst k g.
  apply Qc_mul_same in F1, F6; [ | done | done].
  assert (a = 1) as -> by (rewrite <- F1; ring).
  assert (e = 1) as -> by (rewrite <- F6; ring).
  reflexivity.
Qed.

Lemma identity_system_solved (W H : Z) :
  solves (map of_int [1; 0; 0; 0; 1; 0; 0; 0]%Z)
    (correspondence_rows 0 0 0 0 ++ correspondence_rows W 0 W 0 ++
     correspondence_rows W H W H ++ correspondence_rows 0 H 0 H)
    [0; 0; W; 0; W; H; 0; H]%Z.
Proof.
  unfold solves, correspondence_rows. cbn [app].
  repeat (apply Forall2_cons_iff; split;
          [unfold satisfies; cbn [map dot]; of_int_norm; ring | ]).
  constructor.
Qed.

End ExactSolution.

(** ** Runs that agree *)

Lemma same_image_refl a : same_image a a.
Proof. by split. Qed.

Lemma same_file_refl f : same_file f f.
Proof.
  destruct f as [[img dpi | ] | ]; simpl; [ | done | done].
  split; [apply same_image_refl | done].
Qed.

Lemma same_run_refl {A} (r : outcome A * world) : same_run r r.
Proof. repeat split. intros p. apply same_file_refl. Qed.

Lemma same_run_bind {A B} (c : M A) (k1 k2 : A -> M B) w :
  (forall a w', c w = (Ok a, w') -> same_run (k1 a w') (k2 a w')) ->
  same_run (bind c k1 w) (bind c k2 w).
Proof.
  intros Hk. unfold bind. destruct (c w) as [[a | e] w']; [by apply Hk | apply same_run_refl].
Qed.

(** ** One template composite *)

Section Composite.

Context {S : Solver} {R : Resampler} {O : Host}.

(** Whatever [apply_perspective_transform] returns as an image has the
    requested size, and a size it was given an image of is one Pillow
    accepts for a new image. *)
Lemma apply_perspective_transform_size img target_w target_h dest_corners w warped w' :
  apply_perspective_transform img target_w target_h dest_corners w = (Ok (Some warped), w') ->
  size warped = (target_w, target_h) /\
  forall color,
    PIL.new (target_w, target_h) color = Ok (mkImage target_w target_h (fun _ _ => color)).
Proof.
  unfold apply_perspective_transform, size.
  destruct (find_perspective_coeffs _ _) as [coeffs | e].
  - unfold bind, lift.
    destruct (PIL.transform img (target_w, target_h) coeffs white) as [im | e] eqn:Ht;
      [ | done].
    intros [= <- _]. split; [by eapply transform_size | ].
    intros color. by eapply transform_then_new.
  - destruct e; done.
Qed.

(** When the solve raises the singular-matrix error, the warp prints its
    line and returns nothing. *)
Lemma apply_perspective_transform_singular img target_w target_h dest_corners w :
  find_perspective_coeffs [0; 0; im_w img; 0; im_w img; im_h img; 0; im_h img] dest_corners =
    Raise LinAlgError ->
  apply_perspective_transform img target_w target_h dest_corners w =
    (Ok None,
     mkWorld (fs w)
       (events w ++
          [Printed "Error: Could not calculate perspective matrix. Check for impossible geometry."])).
Proof. intros Hs. unfold apply_perspective_transform, size. rewrite Hs. reflexivity. Qed.

End Composite.

(** ** The stages of a run, read back from their result *)

Section Stages.

Context {S : Solver} {R : Resampler} {O : Host}.

(** A bordered-image stage that returned has built its three rasters and
    saved the artwork, then the canvas. *)
Lemma create_bordered_image_inv fg_img input_folder w w' :
  create_bordered_image fg_img input_folder w = (Ok tt, w') ->
  exists art canvas0 box1,
    PIL.new (3900, 5700) white = Ok canvas0 /\
    PIL.new (3660, 5460) (57, 255, 20) = Ok box1 /\
    resize_cover fg_img 3567 5374 = Ok art /\
    w' =
      mkWorld
        (<[realpath (os.path_join input_folder "print.png") :=
             ImageFile
               (PIL.paste (PIL.paste canvas0 box1 ((3900 - 3660) / 2, (5700 - 5460) / 2)) art
                  ((3900 - 3567) / 2, (5700 - 5374) / 2))
               (Some (300, 300))]>
           (<[realpath (os.path_join input_folder "output.png") := ImageFile art None]>
              (fs w)))
        (events w ++
           [Saved (os.path_join input_folder "output.png");
            Saved (os.path_join input_folder "print.png");
            Printed ("[SUCCESS] Saved bordered image: " +:+
                     os.path_join input_folder "print.png");
            Printed ("[SUCCESS] Saved centered artwork: " +:+
                     os.path_join input_folder "output.png")]).
Proof.
  unfold create_bordered_image.
  unfold bind at 1, lift at 1.
  destruct (PIL.new (3900, 5700) white) as [canvas0 | e] eqn:Hc0; [ | discriminate].
  unfold bind at 1, lift at 1.
  destruct (PIL.new (3660, 5460) (57, 255, 20)) as [box1 | e] eqn:Hb1; [ | discriminate].
  unfold bind at 1, lift at 1.
  destruct (resize_cover fg_img 3567 5374) as [art | e] eqn:Hart; [ | discriminate].
  unfold bind at 1, Image_save at 1.
  destruct (save_error (os.path_join input_folder "output.png")); [discriminate | ].
  unfold bind at 1, Image_save.
  destruct (save_error (os.path_join input_folder "print.png")); [discriminate | ].
  unfold bind, print, emit. cbn [fs events]. rewrite <- !app_assoc. cbn [app].
  intros [= <-]. by exists art, canvas0, box1.
Qed.

(** After it, output.png holds an image. *)
Lemma create_bordered_image_saved fg_img input_folder w w' :
  create_bordered_image fg_img input_folder w = (Ok tt, w') ->
  is_image w' (os.path_join input_folder "output.png") = true.
Proof.
  intros Hrun. destruct (create_bordered_image_inv _ _ _ _ Hrun) as (art & c0 & b1 & _ & _ & _ & ->).
  unfold is_image, file_at. cbn [fs].
  destruct (decide (realpath (os.path_join input_folder "print.png") =
                    realpath (os.path_join input_folder "output.png"))) as [-> | Hne].
  - by rewrite lookup_insert_eq.
  - rewrite lookup_insert_ne by done. by rewrite lookup_insert_eq.
Qed.

(** A template check that found nothing missing has changed nothing. *)
Lemma check_templates_passed paths : forall w,
  fst (check_templates paths w) = Ok None -> check_templates paths w = (Ok None, w).
Proof.
  induction paths as [|q paths IH]; intros w; [reflexivity | ].
  destruct (file_at w q) as [f | ] eqn:Hq.
  - intros Hall. simpl in Hall |- *. unfold bind at 1 in Hall. unfold bind at 1.
    rewrite path_exists_run, Hq in Hall |- *. simpl in Hall |- *. by apply IH.
  - simpl. unfold bind at 1. rewrite path_exists_run, Hq. simpl.
    unfold bind, print, emit, ret. simpl. discriminate.
Qed.


(** [delete_file] leaves no file at its path, when the removal is not
    refused. *)
Lemma delete_file_gone filepath w :
  remove_error filepath = None -> file_at (snd (delete_file filepath w)) filepath = None.
Proof.
  intros Hrm. unfold delete_file. rewrite (bind_Ok _ _ _ _ _ (path_exists_run _ _)).
  destruct (file_at w filepath) as [f | ] eqn:Hf.
  - unfold try_except, bind, os.remove. rewrite Hf, Hrm. unfold print, emit. cbn [snd].
    unfold file_at. cbn [fs]. apply lookup_delete_eq.
  - unfold print, emit. cbn [snd]. exact Hf.
Qed.

(** A step that returned, read as a fact about the file system it left. *)
Lemma writes_only_run {A} paths (c : M A) w a w' k :
  writes_only paths c -> c w = (Ok a, w') -> k ∉ map realpath paths ->
  fs w' !! k = fs w !! k.
Proof. intros Hc Hrun Hk. specialize (Hc w k Hk). by rewrite Hrun in Hc. Qed.

End Stages.

Section Binary64.

Import Float64.

(** ** Binary64: magnitudes of rounded results *)

Lemma digits2_pos_size p : digits2_pos p = Pos.size p.
Proof. induction p; simpl; congruence. Qed.

Lemma Zdigits2_log2 p : Zdigits2 (Z.pos p) = Z.log2 (Z.pos p) + 1.
Proof.
simpl. rewrite digits2_pos_size.
destruct p; simpl; try lia; rewrite Pos2Z.inj_succ; lia.
Qed.

Lemma Zdigits2_bounds n :
0 < n -> 2 ^ (Zdigits2 n - 1) <= n < 2 ^ Zdigits2 n.
Proof.
intros Hn. destruct n as [|p|p]; try lia.
rewrite Zdigits2_log2. replace (Z.log2 (Z.pos p) + 1 - 1) with (Z.log2 (Z.pos p)) by lia.
pose proof (Z.log2_spec (Z.pos p) Hn). unfold Z.succ in *. lia.
Qed.

Lemma Zdigits2_unique n d :
2 ^ (d - 1) <= n < 2 ^ d -> 0 < n -> Zdigits2 n = d.
Proof.
intros Hb Hn. destruct n as [|p|p]; try lia.
rewrite Zdigits2_log2.
assert (0 <= d - 1) as Hd.
{ destruct (Z.le_gt_cases 0 (d - 1)) as [? | Hneg]; [done | ].
  destruct (Z.eq_dec d 0) as [-> | ?]; [simpl in Hb; lia | ].
  rewrite (Z.pow_neg_r 2 d) in Hb by lia. lia. }
rewrite (Z.log2_unique (Z.pos p) (d - 1)); [lia | lia | ].
replace (Z.succ (d - 1)) with d by lia. lia.
Qed.

Lemma Zdigits2_pos n : 0 < n -> 0 < Zdigits2 n.
Proof. destruct n; simpl; lia. Qed.

Lemma pow2_pos k : 0 <= k -> 0 < 2 ^ k.
Proof. intros. apply Z.pow_pos_nonneg; lia. Qed.

Lemma shr_1_m mrs : 0 <= shr_m mrs -> shr_m (shr_1 mrs) = shr_m mrs / 2.
Proof.
destruct mrs as [m r s]. simpl. intros Hm. rewrite <- Z.div2_div.
destruct m as [|[p|p|]|p]; try reflexivity; lia.
Qed.

Lemma iter_shr_1_m p : forall mrs,
0 <= shr_m mrs -> shr_m (SpecFloat.iter_pos shr_1 p mrs) = shr_m mrs / 2 ^ Z.pos p.
Proof.
induction p as [p IH | p IH | ]; intros mrs Hm; simpl SpecFloat.iter_pos.
- assert (0 <= shr_m (shr_1 mrs)) as H1.
  { rewrite shr_1_m by done. apply Z.div_pos; lia. }
  assert (0 <= shr_m (SpecFloat.iter_pos shr_1 p (shr_1 mrs))) as H2.
  { rewrite IH by done. apply Z.div_pos; [done | apply pow2_pos; lia]. }
  rewrite IH, IH, shr_1_m by done.
  rewrite !Z.div_div by (try apply pow2_pos; lia).
  f_equal. replace (Z.pos p~1) with (1 + Z.pos p + Z.pos p) by lia.
  rewrite !Z.pow_add_r by lia. change (2 ^ 1) with 2. lia.
- assert (0 <= shr_m (SpecFloat.iter_pos shr_1 p mrs)) as H2.
  { rewrite IH by done. apply Z.div_pos; [done | apply pow2_pos; lia]. }
  rewrite IH, IH by done.
  rewrite !Z.div_div by (try apply pow2_pos; lia).
  f_equal. replace (Z.pos p~0) with (Z.pos p + Z.pos p) by lia.
  rewrite !Z.pow_add_r by lia. lia.
- rewrite shr_1_m by done. reflexivity.
Qed.

Lemma shr_record_of_loc_m m l : shr_m (shr_record_of_loc m l) = m.
Proof. by destruct l as [|[]]. Qed.

Lemma shr_spec m l e n :
0 <= m ->
shr_m (fst (shr (shr_record_of_loc m l) e n)) = m / 2 ^ Z.max n 0 /\
snd (shr (shr_record_of_loc m l) e n) = e + Z.max n 0.
Proof.
intros Hm. destruct n as [|p|p]; simpl.
- rewrite shr_record_of_loc_m, Z.div_1_r. lia.
- rewrite iter_shr_1_m by (by rewrite shr_record_of_loc_m).
  rewrite shr_record_of_loc_m. done.
- rewrite shr_record_of_loc_m, Z.div_1_r. lia.
Qed.

Lemma round_nearest_even_bounds m l :
m <= round_nearest_even m l <= m + 1.
Proof. destruct l as [|[]]; simpl; try lia. destruct (Z.even m); lia. Qed.

(** Dividing a number of at least 53 digits by 2^(digits - 53) leaves
  exactly 53 digits. *)
Lemma shift_to_53 m :
0 < m -> 53 <= Zdigits2 m ->
2 ^ 52 <= m / 2 ^ Z.max (Zdigits2 m - 53) 0 < 2 ^ 53.
Proof.
intros Hm Hd. pose proof (Zdigits2_bounds m Hm) as [Hlo Hhi].
rewrite Z.max_l by lia. set (d := Zdigits2 m) in *.
assert (0 < 2 ^ (d - 53)) as Hp by (apply pow2_pos; lia).
split.
- apply Z.div_le_lower_bound; [done | ].
  rewrite <- Z.pow_add_r by lia. replace (d - 53 + 52) with (d - 1) by lia. done.
- apply Z.div_lt_upper_bound; [done | ].
  rewrite <- Z.pow_add_r by lia. replace (d - 53 + 53) with d by lia. done.
Qed.

(** The rounding of a positive significand of at least 53 digits, in the
  normal range: a finite value with a 53-digit significand whose magnitude
  is that of the input, or one more. *)
Lemma binary_round_aux_normal sx mx ex lx :
0 < mx -> 53 <= Zdigits2 mx -> -1021 <= Zdigits2 mx + ex <= 1023 ->
exists m e,
  binary_round_aux prec emax sx mx ex lx = S754_finite sx m e /\
  Zdigits2 (Z.pos m) = 53 /\
  Zdigits2 mx + ex <= 53 + e <= Zdigits2 mx + ex + 1.
Proof.
intros Hm Hd Hrange. unfold binary_round_aux, shr_fexp.
set (d := Zdigits2 mx) in *.
assert (fexp prec emax (d + ex) - ex = d - 53) as Hn1.
{ unfold fexp, emin, prec, emax. lia. }
rewrite Hn1.
destruct (shr_spec mx lx ex (d - 53) ltac:(lia)) as [Hm1 He1].
destruct (shr (shr_record_of_loc mx lx) ex (d - 53)) as [mrs' e'] eqn:Hshr.
simpl in Hm1, He1.
pose proof (shift_to_53 mx Hm Hd) as Hb1. fold d in Hb1. rewrite <- Hm1 in Hb1.
rewrite Z.max_l in He1 by lia.
pose proof (round_nearest_even_bounds (shr_m mrs') (loc_of_shr_record mrs')) as Hr.
set (m2 := round_nearest_even (shr_m mrs') (loc_of_shr_record mrs')) in *.
assert (0 < m2) as Hm2 by (pose proof (pow2_pos 52); lia).
destruct (Z.eq_dec m2 (2 ^ 53)) as [Heq | Hne].
- assert (Zdigits2 m2 = 54) as Hd2.
  { apply Zdigits2_unique; [ | done]. rewrite Heq. change (54 - 1) with 53.
    split; [lia | ]. apply Z.pow_lt_mono_r; lia. }
  rewrite Hd2.
  assert (fexp prec emax (54 + e') - e' = 1) as Hn2.
  { unfold fexp, emin, prec, emax. lia. }
  rewrite Hn2.
  destruct (shr_spec m2 loc_Exact e' 1 ltac:(lia)) as [Hm3 He3].
  destruct (shr (shr_record_of_loc m2 loc_Exact) e' 1) as [mrs'' e''] eqn:Hshr2.
  simpl in Hm3, He3. rewrite Heq in Hm3. change (2 ^ 53 / 2 ^ 1) with (2 ^ 52) in Hm3.
  rewrite Hm3. change (2 ^ 52) with (Z.pos (2 ^ 52)).
  assert ((e'' <=? emax - prec) = true) as -> by (apply Z.leb_le; unfold emax, prec; lia).
  eexists _, _. split; [reflexivity | ]. split; [reflexivity | lia].
- assert (Zdigits2 m2 = 53) as Hd2.
  { apply Zdigits2_unique; [ | done]. change (53 - 1) with 52. lia. }
  rewrite Hd2.
  assert (fexp prec emax (53 + e') - e' = 0) as Hn2.
  { unfold fexp, emin, prec, emax. lia. }
  rewrite Hn2. clearbody m2. cbn [shr shr_record_of_loc shr_m].
  destruct m2 as [|p|p] eqn:Hp; try lia.
  assert ((e' <=? emax - prec) = true) as -> by (apply Z.leb_le; unfold emax, prec; lia).
  eexists _, _. split; [reflexivity | ]. split; [exact Hd2 | lia].
Qed.

Lemma Zdigits2_ge n k : 0 <= k -> 2 ^ k <= n -> k + 1 <= Zdigits2 n.
Proof.
intros Hk Hn. assert (0 < n) as Hpos by (pose proof (pow2_pos k Hk); lia).
pose proof (Zdigits2_bounds n Hpos) as [_ Hhi].
destruct (Z.le_gt_cases (k + 1) (Zdigits2 n)) as [? | Hlt]; [done | ].
assert (2 ^ Zdigits2 n <= 2 ^ k) by (apply Z.pow_le_mono_r; lia). lia.
Qed.

Lemma Zdigits2_le n k : 0 < n -> n < 2 ^ k -> Zdigits2 n <= k.
Proof.
intros Hpos Hn. pose proof (Zdigits2_bounds n Hpos) as [Hlo _].
destruct (Z.le_gt_cases (Zdigits2 n) k) as [? | Hlt]; [done | ].
assert (0 <= k).
{ destruct (Z.le_gt_cases 0 k) as [? | Hneg]; [done | ].
  rewrite Z.pow_neg_r in Hn by done. lia. }
assert (2 ^ k <= 2 ^ (Zdigits2 n - 1)) by (apply Z.pow_le_mono_r; lia). lia.
Qed.

Lemma iter_xO p d : Z.pos (Pos.iter xO p d) = Z.pos p * 2 ^ Z.pos d.
Proof.
induction d as [|d IH] using Pos.peano_ind.
- simpl. lia.
- rewrite Pos.iter_succ, Pos2Z.inj_xO, IH, Pos2Z.inj_succ, Z.pow_succ_r by lia. lia.
Qed.

(** [float(n)] for a positive integer below 2^53. *)
Lemma of_Z_normal n :
0 < n < 2 ^ 53 ->
exists m e, of_Z n = S754_finite false m e /\ Zdigits2 (Z.pos m) = 53 /\
            Zdigits2 n <= 53 + e <= Zdigits2 n + 1.
Proof.
intros [Hpos Hlt]. destruct n as [|p|p]; try lia.
unfold of_Z, binary_normalize, binary_round.
pose proof (Zdigits2_le _ 53 Hpos Hlt) as Hd.
pose proof (Zdigits2_pos _ Hpos) as Hd0.
pose proof (Zdigits2_bounds _ Hpos) as [Hlo Hhi].
change (Z.pos (digits2_pos p)) with (Zdigits2 (Z.pos p)).
set (d := Zdigits2 (Z.pos p)) in *.
assert (fexp prec emax (d + 0) = d - 53) as ->.
{ unfold fexp, emin, prec, emax. lia. }
unfold shl_align. replace (d - 53 - 0) with (d - 53) by lia.
destruct (d - 53) as [|q|q] eqn:Hq; try lia.
- destruct (binary_round_aux_normal false (Z.pos p) 0 loc_Exact Hpos) as (m & e & H1 & H2 & H3);
    [fold d; lia | fold d; lia | ].
  exists m, e. fold d in H3. split; [done | split; [done | lia]].
- assert (Zdigits2 (Z.pos (Pos.iter xO p q)) = 53) as Hd'.
  { apply Zdigits2_unique; [ | lia]. rewrite iter_xO.
    replace (Z.pos q) with (53 - d) by lia. change (53 - 1) with 52. split.
    - replace 52 with (d - 1 + (53 - d)) by lia. rewrite Z.pow_add_r by lia.
      apply Z.mul_le_mono_nonneg_r; [apply Z.lt_le_incl, pow2_pos; lia | done].
    - replace 53 with (d + (53 - d)) at 2 by lia. rewrite Z.pow_add_r by lia.
      apply Z.mul_lt_mono_pos_r; [apply pow2_pos; lia | done]. }
  destruct (binary_round_aux_normal false (Z.pos (Pos.iter xO p q)) (Z.neg q) loc_Exact)
    as (m & e & H1 & H2 & H3); [lia | lia | lia | ].
  exists m, e. split; [done | split; [done | lia]].
Qed.

(** The product of two normal positive values. *)
Lemma mul_normal m1 e1 m2 e2 :
Zdigits2 (Z.pos m1) = 53 -> Zdigits2 (Z.pos m2) = 53 ->
-1000 <= e1 + e2 <= 900 ->
exists m e,
  mul (S754_finite false m1 e1) (S754_finite false m2 e2) = S754_finite false m e /\
  Zdigits2 (Z.pos m) = 53 /\
  (53 + e1) + (53 + e2) - 1 <= 53 + e <= (53 + e1) + (53 + e2) + 1.
Proof.
intros H1 H2 Hr. unfold mul, SFmul. simpl xorb.
pose proof (Zdigits2_bounds (Z.pos m1) ltac:(lia)) as [Hlo1 Hhi1].
pose proof (Zdigits2_bounds (Z.pos m2) ltac:(lia)) as [Hlo2 Hhi2].
rewrite H1 in *. rewrite H2 in *. change (53 - 1) with 52 in *.
rewrite Pos2Z.inj_mul.
assert (2 ^ 104 <= Z.pos m1 * Z.pos m2) as Hlo.
{ change (2 ^ 104) with (2 ^ 52 * 2 ^ 52). apply Z.mul_le_mono_nonneg; lia. }
assert (Z.pos m1 * Z.pos m2 < 2 ^ 106) as Hhi.
{ change (2 ^ 106) with (2 ^ 53 * 2 ^ 53). apply Z.mul_lt_mono_nonneg; lia. }
assert (0 < Z.pos m1 * Z.pos m2) as Hpos by (apply Z.mul_pos_pos; lia).
pose proof (Zdigits2_ge _ 104 ltac:(lia) Hlo) as Hd1.
pose proof (Zdigits2_le _ 106 Hpos Hhi) as Hd2.
destruct (binary_round_aux_normal false (Z.pos m1 * Z.pos m2) (e1 + e2) loc_Exact)
  as (m & e & H3 & H4 & H5); [done | lia | lia | ].
exists m, e. split; [done | split; [done | lia]].
Qed.

(** Python's true division of two positive integers. *)
Lemma truediv_normal a b :
0 < a -> 0 < b -> -900 <= Zdigits2 a - Zdigits2 b <= 53 ->
exists m e,
  truediv a b = Ok (S754_finite false m e) /\
  Zdigits2 (Z.pos m) = 53 /\
  Zdigits2 a - Zdigits2 b <= 53 + e <= Zdigits2 a - Zdigits2 b + 2.
Proof.
intros Ha Hb Hr. unfold truediv.
destruct (Z.eqb_spec b 0) as [-> | _]; [lia | ].
destruct a as [|pa|pa]; try lia. destruct b as [|pb|pb]; try lia.
unfold div, raw, SFdiv, SFdiv_core_binary. simpl xorb.
pose proof (Zdigits2_bounds _ Ha) as [Hlo1 Hhi1].
pose proof (Zdigits2_bounds _ Hb) as [Hlo2 Hhi2].
pose proof (Zdigits2_pos _ Ha) as Hd1. pose proof (Zdigits2_pos _ Hb) as Hd2.
set (d1 := Zdigits2 (Z.pos pa)) in *. set (d2 := Zdigits2 (Z.pos pb)) in *.
assert (Z.min (fexp prec emax (d1 + 0 - (d2 + 0))) (0 - 0) = d1 - d2 - 53) as ->.
{ unfold fexp, emin, prec, emax. lia. }
replace (0 - 0 - (d1 - d2 - 53)) with (53 - (d1 - d2)) by lia.
set (s := 53 - (d1 - d2)).
assert (match s with
        | 0 => Z.pos pa
        | Z.pos _ => Z.shiftl (Z.pos pa) s
        | Z.neg _ => 0
        end = Z.pos pa * 2 ^ s) as ->.
{ destruct s eqn:Hs; try lia. rewrite Z.shiftl_mul_pow2 by lia. done. }
assert (0 <= s) as Hs by (unfold s; lia).
assert (2 ^ (52 + d2) <= Z.pos pa * 2 ^ s < 2 ^ (53 + d2)) as [Hlo Hhi].
{ replace (52 + d2) with (d1 - 1 + s) by (unfold s; lia).
  replace (53 + d2) with (d1 + s) by (unfold s; lia).
  rewrite !Z.pow_add_r by lia. pose proof (pow2_pos s Hs). split.
  - apply Z.mul_le_mono_nonneg_r; lia.
  - apply Z.mul_lt_mono_pos_r; lia. }
pose proof (Z_div_mod_eq_full (Z.pos pa * 2 ^ s) (Z.pos pb)) as Hdiv.
unfold Z.div, Z.modulo in Hdiv |- *.
destruct (Z.div_eucl (Z.pos pa * 2 ^ s) (Z.pos pb)) as [q r] eqn:Hqr.
assert (q = (Z.pos pa * 2 ^ s) / Z.pos pb) as Hq.
{ unfold Z.div. by rewrite Hqr. }
assert (2 ^ 52 <= q < 2 ^ 54) as [Hq1 Hq2].
{ rewrite Hq. split.
  - apply Z.div_le_lower_bound; [lia | ].
    rewrite Z.pow_add_r in Hlo by lia.
    assert (Z.pos pb * 2 ^ 52 <= 2 ^ d2 * 2 ^ 52) by (apply Z.mul_le_mono_nonneg_r; lia).
    lia.
  - apply Z.div_lt_upper_bound; [lia | ].
    replace (53 + d2) with (d2 - 1 + 54) in Hhi by lia.
    rewrite Z.pow_add_r in Hhi by lia.
    assert (2 ^ (d2 - 1) * 2 ^ 54 <= Z.pos pb * 2 ^ 54) by (apply Z.mul_le_mono_nonneg_r; lia).
    lia. }
assert (0 < q) as Hqpos by (pose proof (pow2_pos 52 ltac:(lia)); lia).
pose proof (Zdigits2_ge _ 52 ltac:(lia) Hq1) as Hdq1.
pose proof (Zdigits2_le _ 54 Hqpos Hq2) as Hdq2.
destruct (binary_round_aux_normal false q (d1 - d2 - 53) (new_location (Z.pos pb) r))
  as (m & e & H3 & H4 & H5); [done | lia | lia | ].
rewrite H3. simpl. exists m, e. split; [done | split; [done | lia]].
Qed.

Lemma max_normal m1 e1 m2 e2 :
exists m e,
  max (S754_finite false m1 e1) (S754_finite false m2 e2) = S754_finite false m e /\
  ((m = m1 /\ e = e1) \/ (m = m2 /\ e = e2)) /\ e1 <= e /\ e2 <= e.
Proof.
unfold max, SFltb, SFcompare.
destruct (Z.compare_spec e1 e2) as [-> | Hlt | Hgt].
- destruct (Pos.compare_cont Eq m1 m2); eexists _, _; (split; [reflexivity | ]); split; auto; lia.
- eexists _, _; (split; [reflexivity | ]); split; auto; lia.
- eexists _, _; (split; [reflexivity | ]); split; auto; lia.
Qed.

Lemma trunc_ge_1 m e :
1 <= Zdigits2 (Z.pos m) + e -> 1 <= trunc (S754_finite false m e).
Proof.
intros Hd. pose proof (Zdigits2_bounds (Z.pos m) ltac:(lia)) as [Hlo _].
unfold trunc. destruct e as [|p|p].
- lia.
- pose proof (pow2_pos (Z.pos p) ltac:(lia)). nia.
- apply Z.div_le_lower_bound; [apply pow2_pos; lia | ].
  assert (2 ^ Z.pos p <= 2 ^ (Zdigits2 (Z.pos m) - 1)) by (apply Z.pow_le_mono_r; lia).
  lia.
Qed.

(** [int(n * scale)] is at least 1 when [scale] is a normal value of
  magnitude at least [2 - digits n]. *)
Lemma scaled_side n sm se :
0 < n < 2 ^ 31 -> Zdigits2 (Z.pos sm) = 53 ->
2 - Zdigits2 n <= 53 + se <= 100 ->
exists k, obind (mul_int n (S754_finite false sm se)) to_int = Ok k /\ 1 <= k.
Proof.
intros Hn Hsm Hse.
assert (n < 2 ^ 53) as Hn53.
{ assert (2 ^ 31 < 2 ^ 53) by (apply Z.pow_lt_mono_r; lia). lia. }
pose proof (Zdigits2_pos n ltac:(lia)) as Hd0.
pose proof (Zdigits2_le n 31 ltac:(lia) ltac:(lia)) as Hd31.
destruct (of_Z_normal n ltac:(lia)) as (m & e & Hof & Hm & He).
unfold mul_int. rewrite Hof. cbn [is_finite obind].
destruct (mul_normal m e sm se Hm Hsm ltac:(lia)) as (m' & e' & Hmul & Hm' & He').
rewrite Hmul. cbn [to_int]. eexists. split; [reflexivity | ].
apply (trunc_ge_1 m' e'). lia.
Qed.

End Binary64.

(** ** The multiply blend does not depend on the order of its operands *)

Lemma SFmul_comm x y :
  SFmul Float64.prec Float64.emax x y = SFmul Float64.prec Float64.emax y x.
Proof.
  destruct x as [sx | sx | | sx mx ex], y as [sy | sy | | sy my ey]; simpl; try reflexivity;
    rewrite ?(xorb_comm sx sy), ?(Pos.mul_comm mx my), ?(Z.add_comm ex ey); reflexivity.
Qed.

Lemma blend_channel_comm a b : blend_channel a b = blend_channel b a.
Proof.
  unfold blend_channel, Float64.mul.
  by rewrite (SFmul_comm (Float64.div (Float64.of_Z a) (Float64.of_Z 255))).
Qed.

Lemma blend_pixel_comm p q : blend_pixel p q = blend_pixel q p.
Proof.
  destruct p as [[r1 g1] b1], q as [[r2 g2] b2]. unfold blend_pixel.
  by rewrite (blend_channel_comm r1), (blend_channel_comm g1), (blend_channel_comm b1).
Qed.

Lemma broadcast_axis_comm a b : broadcast_axis a b = broadcast_axis b a.
Proof.
  unfold broadcast_axis.
  destruct (Z.eqb_spec a b) as [-> | Hab]; [by rewrite Z.eqb_refl | ].
  destruct (Z.eqb_spec b a) as [-> | _]; [done | ].
  destruct (Z.eqb_spec a 1) as [-> | Ha], (Z.eqb_spec b 1) as [-> | Hb]; done.
Qed.

(** ** What a run may write *)

Section Frame.

Context {S : Solver} {R : Resampler} {O : Host}.

Lemma writes_only_ret {A} paths (a : A) : writes_only paths (ret a).
Proof. by intros w k _. Qed.

Lemma writes_only_raise {A} paths e : writes_only paths (@raise A e).
Proof. by intros w k _. Qed.

Lemma writes_only_lift {A} paths (o : outcome A) : writes_only paths (lift o).
Proof. intros w k _. unfold lift. by destruct o. Qed.

Lemma writes_only_print paths line : writes_only paths (print line).
Proof. by intros w k _. Qed.

Lemma writes_only_path_exists paths q : writes_only paths (os.path_exists q).
Proof. by intros w k _. Qed.

Lemma writes_only_Image_open paths q : writes_only paths (Image_open q).
Proof. intros w k _. unfold Image_open. by destruct (file_at w q) as [[]|]. Qed.

Lemma writes_only_Image_save paths img q dpi :
  q ∈ paths -> writes_only paths (Image_save img q dpi).
Proof.
  intros Hq w k Hk. unfold Image_save. destruct (save_error q); [done | ].
  simpl. apply lookup_insert_ne. intros <-. apply Hk.
  apply list_elem_of_fmap. by exists q.
Qed.

Lemma writes_only_remove paths q : q ∈ paths -> writes_only paths (os.remove q).
Proof.
  intros Hq w k Hk. unfold os.remove.
  destruct (file_at w q); [ | done]. destruct (remove_error q); [done | ].
  simpl. apply lookup_delete_ne. intros <-. apply Hk.
  apply list_elem_of_fmap. by exists q.
Qed.

Lemma writes_only_bind {A B} paths (c : M A) (k : A -> M B) :
  writes_only paths c -> (forall a, writes_only paths (k a)) ->
  writes_only paths (bind c k).
Proof.
  intros Hc Hk w p Hp. unfold bind. specialize (Hc w p Hp).
  destruct (c w) as [[a | e] w1]; simpl in Hc; [ | done].
  by rewrite (Hk a w1 p Hp).
Qed.

Lemma writes_only_try_except {A} paths catches (c : M A) (h : exn -> M A) :
  writes_only paths c -> (forall e, writes_only paths (h e)) ->
  writes_only paths (try_except catches c h).
Proof.
  intros Hc Hh w p Hp. unfold try_except. specialize (Hc w p Hp).
  destruct (c w) as [[a | e] w1]; simpl in Hc; [done | ].
  destruct (catches e); [ | done].
  by rewrite (Hh e w1 p Hp).
Qed.

Ltac frame :=
  repeat match goal with
    | |- writes_only _ (ret _) => apply writes_only_ret
    | |- writes_only _ (raise _) => apply writes_only_raise
    | |- writes_only _ (lift _) => apply writes_only_lift
    | |- writes_only _ (print _) => apply writes_only_print
    | |- writes_only _ (os.path_exists _) => apply writes_only_path_exists
    | |- writes_only _ (Image_open _) => apply writes_only_Image_open
    | |- writes_only _ (bind _ _) => apply writes_only_bind; [ | intros ? ]
    | |- writes_only _ (try_except _ _ _) => apply writes_only_try_except; [ | intros ? ]
    | |- writes_only _ (if ?b then _ else _) => destruct b
    end.

Lemma writes_only_apply_perspective_transform paths img target_w target_h dest_corners :
  writes_only paths (apply_perspective_transform img target_w target_h dest_corners).
Proof.
  unfold apply_perspective_transform, size.
  destruct (find_perspective_coeffs _ _) as [coeffs | []]; frame.
Qed.

Lemma writes_only_delete_file paths q : q ∈ paths -> writes_only paths (delete_file q).
Proof.
  intros Hq. unfold delete_file. frame. by apply writes_only_remove.
Qed.

Lemma writes_only_create_bordered_image paths fg_img input_folder :
  os.path_join input_folder "output.png" ∈ paths ->
  os.path_join input_folder "print.png" ∈ paths ->
  writes_only paths (create_bordered_image fg_img input_folder).
Proof.
  intros Ho Hp. unfold create_bordered_image. frame.
  - by apply writes_only_Image_save.
  - by apply writes_only_Image_save.
Qed.

Lemma writes_only_create_multiplied_image paths fg_img show_image_path output_path
    dest_corners resize_flag :
  output_path ∈ paths ->
  writes_only paths
    (create_multiplied_image fg_img show_image_path output_path dest_corners resize_flag).
Proof.
  intros Ho. unfold create_multiplied_image, size. frame.
  - apply writes_only_apply_perspective_transform.
  - destruct a1 as [warped | ]; frame. by apply writes_only_Image_save.
Qed.

Lemma writes_only_composite_step paths art show_image_path output_path dest flag files :
  output_path ∈ paths ->
  writes_only paths (composite_step art show_image_path output_path dest flag files).
Proof.
  intros Ho. unfold composite_step. frame. by apply writes_only_create_multiplied_image.
Qed.

Lemma writes_only_check_templates paths templates :
  writes_only paths (check_templates templates).
Proof.
  induction templates as [ | q templates IH]; simpl; frame. exact IH.
Qed.

(** The five output paths of a run. *)
Lemma writes_only_process_image_with dest1 dest2 dest3 input_path output_folder script_dir :
  writes_only
    [os.path_join output_folder "output.png"; os.path_join output_folder "print.png";
     os.path_join output_folder "show.png"; os.path_join output_folder "show2.png";
     os.path_join output_folder "show3.png"]
    (process_image_with dest1 dest2 dest3 input_path output_folder script_dir).
Proof.
  unfold process_image_with.
  apply writes_only_bind; [apply writes_only_check_templates | ].
  intros [missing | ]; frame.
  destruct a as [fg_img | msg]; frame.
  - apply writes_only_create_bordered_image; set_solver.
  - apply writes_only_composite_step; set_solver.
  - apply writes_only_composite_step; set_solver.
  - apply writes_only_composite_step; set_solver.
  - apply writes_only_delete_file; set_solver.
Qed.

End Frame.

(** * Main results *)

(** ** The geometry solver *)

(** C1, as amended.  For positive W and H, [find_perspective_coeffs] given
    the identity correspondences (0,0)->(0,0), (W,0)->(W,0), (W,H)->(W,H),
    (0,H)->(0,H) builds the 8x8 system whose rows are
    [x, y, 1, 0, 0, 0, -X*x, -X*y] and [0, 0, 0, x, y, 1, -Y*x, -Y*y] for
    each correspondence, with the targets X and Y in the same order, and
    returns what the solve returns on it.  The identity coefficients
    a = 1, b = 0, c = 0, d = 0, e = 1, f = 0, g = 0, h = 0 are the exact
    solution of that system, and the only one. *)
Theorem identity_correspondences_exact_solution {S : Solver} (W H : Z) :
  0 < W -> 0 < H ->
  exists matrix,
    build_matrix [0; 0; W; 0; W; H; 0; H] [0; 0; W; 0; W; H; 0; H] (seq 0 4) = Ok matrix /\
    matrix = [[0; 0; 1; 0; 0; 0; - 0 * 0; - 0 * 0];
              [0; 0; 0; 0; 0; 1; - 0 * 0; - 0 * 0];
              [W; 0; 1; 0; 0; 0; - W * W; - W * 0];
              [0; 0; 0; W; 0; 1; - 0 * W; - 0 * 0];
              [W; H; 1; 0; 0; 0; - W * W; - W * H];
              [0; 0; 0; W; H; 1; - H * W; - H * H];
              [0; H; 1; 0; 0; 0; - 0 * 0; - 0 * H];
              [0; 0; 0; 0; H; 1; - H * 0; - H * H]] /\
    reshape_8_1 [0; 0; W; 0; W; H; 0; H] = Ok [0; 0; W; 0; W; H; 0; H] /\
    (forall A, float64_matrix matrix = Ok A ->
       find_perspective_coeffs [0; 0; W; 0; W; H; 0; H] [0; 0; W; 0; W; H; 0; H] =
       linalg_solve A [0; 0; W; 0; W; H; 0; H]) /\
    Exact.solves (map Exact.of_int [1; 0; 0; 0; 1; 0; 0; 0]) matrix [0; 0; W; 0; W; H; 0; H] /\
    (forall x, length x = 8%nat ->
       Exact.solves x matrix [0; 0; W; 0; W; H; 0; H] ->
       x = map Exact.of_int [1; 0; 0; 0; 1; 0; 0; 0]).
Proof.
  intros HW HH. eexists. split; [reflexivity | ]. split; [reflexivity | ].
  split; [reflexivity | ]. split; [ | split].
  - intros A HA. unfold find_perspective_coeffs.
    match type of HA with float64_matrix ?m = _ =>
      change (build_matrix [0; 0; W; 0; W; H; 0; H] [0; 0; W; 0; W; H; 0; H] (seq 0 4))
        with (Ok m)
    end.
    cbn [obind]. by rewrite HA.
  - apply (identity_system_solved W H).
  - intros x Hlen Hx. apply (identity_system_unique W H x); [lia | lia | done | done].
Qed.

Lemma identity_correspondences_4_by_3 :
  exists matrix,
    build_matrix [0; 0; 4; 0; 4; 3; 0; 3] [0; 0; 4; 0; 4; 3; 0; 3] (seq 0 4) = Ok matrix /\
    matrix = [[0; 0; 1; 0; 0; 0; - 0 * 0; - 0 * 0];
              [0; 0; 0; 0; 0; 1; - 0 * 0; - 0 * 0];
              [4; 0; 1; 0; 0; 0; - 4 * 4; - 4 * 0];
              [0; 0; 0; 4; 0; 1; - 0 * 4; - 0 * 0];
              [4; 3; 1; 0; 0; 0; - 4 * 4; - 4 * 3];
              [0; 0; 0; 4; 3; 1; - 3 * 4; - 3 * 3];
              [0; 3; 1; 0; 0; 0; - 0 * 0; - 0 * 3];
              [0; 0; 0; 0; 3; 1; - 3 * 0; - 3 * 3]] /\
    reshape_8_1 [0; 0; 4; 0; 4; 3; 0; 3] = Ok [0; 0; 4; 0; 4; 3; 0; 3] /\
    (forall A, float64_matrix matrix = Ok A ->
       @find_perspective_coeffs LinAlg.reference [0; 0; 4; 0; 4; 3; 0; 3]
         [0; 0; 4; 0; 4; 3; 0; 3] =
       @linalg_solve LinAlg.reference A [0; 0; 4; 0; 4; 3; 0; 3]) /\
    Exact.solves (map Exact.of_int [1; 0; 0; 0; 1; 0; 0; 0]) matrix [0; 0; 4; 0; 4; 3; 0; 3] /\
    (forall x, length x = 8%nat ->
       Exact.solves x matrix [0; 0; 4; 0; 4; 3; 0; 3] ->
       x = map Exact.of_int [1; 0; 0; 0; 1; 0; 0; 0]).
Proof.
  apply (@identity_correspondences_exact_solution LinAlg.reference 4 3); lia.
Defined.

(** C1, as the claim states it, fails.  On a 49 x 49 rectangle the float64
    elimination does not return the identity: its first multiplier is
    49 * (1 / 49) = 0.9999999999999999, and the first coefficient comes out
    as 1 + 2^-52 = 1.0000000000000002, with non-zero g and h. *)
Lemma identity_at_49_is_not_exact :
  exists a b g h,
    @find_perspective_coeffs LinAlg.reference [0; 0; 49; 0; 49; 49; 0; 49]
        [0; 0; 49; 0; 49; 49; 0; 49] =
      Ok [a; b; Float64.zero; Float64.zero; Float64.one; Float64.zero; g; h] /\
    a = S754_finite false 4503599627370497 (-52) /\
    a <> Float64.one /\
    Float64.is_zero g = false /\ Float64.is_zero h = false.
Proof.
  do 4 eexists. split; [vm_compute; reflexivity | ].
  split; [reflexivity | ]. split; [discriminate | ]. split; reflexivity.
Qed.

(** On a 4 x 3 rectangle every operation of the elimination is exact, and
    the identity is returned. *)
Example identity_at_4_by_3_is_exact :
  @find_perspective_coeffs LinAlg.reference [0; 0; 4; 0; 4; 3; 0; 3] [0; 0; 4; 0; 4; 3; 0; 3] =
    Ok (map Float64.of_Z [1; 0; 0; 0; 1; 0; 0; 0]).
Proof. vm_compute. reflexivity. Qed.

(** ** The multiply blend *)

(** C2. For an 8-bit RGB image A and a pure-white image of the same size,
    [apply_multiply_blend] returns, in either operand order, an image of
    A's size whose every pixel and channel is that of A. *)
Theorem multiply_blend_white_identity (A Wh : Image) :
  valid_image A ->
  size Wh = size A ->
  (forall x y, in_bounds (im_w Wh) (im_h Wh) x y = true -> im_px Wh x y = white) ->
  exists r1 r2,
    apply_multiply_blend A Wh = Ok r1 /\
    apply_multiply_blend Wh A = Ok r2 /\
    same_image r1 A /\ same_image r2 A.
Proof.
  intros HA Hs Hwhite. injection Hs as Hw Hh.
  destruct (apply_multiply_blend_same_size A Wh) as (r1 & Hr1 & Hs1 & Hp1);
    [unfold size; congruence | ].
  destruct (apply_multiply_blend_same_size Wh A) as (r2 & Hr2 & Hs2 & Hp2);
    [unfold size; congruence | ].
  exists r1, r2. split; [done | ]. split; [done | ]. split.
  - split; [done | ]. intros x y Hb. injection Hs1 as Hw1 Hh1. rewrite Hw1, Hh1 in Hb.
    rewrite (Hp1 x y Hb), Hwhite by (by rewrite Hw, Hh).
    apply blend_pixel_white. by apply HA.
  - split; [unfold size in *; congruence | ]. intros x y Hb.
    injection Hs2 as Hw2 Hh2. rewrite Hw2, Hh2 in Hb.
    rewrite (Hp2 x y Hb), Hwhite by done.
    apply blend_pixel_white. apply HA. by rewrite <- Hw, <- Hh.
Qed.

Lemma multiply_blend_white_gradient :
  exists r1 r2,
    apply_multiply_blend (gradient 3 2) (flat 3 2 white) = Ok r1 /\
    apply_multiply_blend (flat 3 2 white) (gradient 3 2) = Ok r2 /\
    same_image r1 (gradient 3 2) /\ same_image r2 (gradient 3 2).
Proof.
  apply (multiply_blend_white_identity (gradient 3 2) (flat 3 2 white)).
  - intros x y _. cbv [gradient im_px valid_pixel valid_channel].
    pose proof (Z.mod_pos_bound x 256). pose proof (Z.mod_pos_bound y 256). lia.
  - reflexivity.
  - intros x y _. reflexivity.
Defined.

(** ** Cover resize *)

(** C3. [resize_cover] on a 49 x 49 image with a 1 x 1 target: the scale is
    the binary64 quotient 1/49, the product 49 * (1/49) rounds to the double
    just below 1, [int] truncates it to 0, and Pillow refuses to resize to
    0 x 0.  No image is returned. *)
Theorem resize_cover_49_to_1_raises `{Resampler} (px : Z -> Z -> pixel) :
  resize_cover (mkImage 49 49 px) 1 1 = Raise (ValueError "height and width must be > 0").
Proof. reflexivity. Qed.

(** ** The bordered canvas *)

Section Border.

Context {R : Resampler} {O : Host}.


End Border.



(** ** One template composite *)

Section Templates.

Context {S : Solver} {R : Resampler} {O : Host}.

(** C5. When [create_multiplied_image] succeeds, the template it loaded is
    an image file and the file it saved at the output path holds a raster
    of exactly the template's width and height. *)
Theorem composite_has_template_size fg_img show_image_path output_path dest_corners
    resize_flag w :
  fst (create_multiplied_image fg_img show_image_path output_path dest_corners
         resize_flag w) = Ok true ->
  exists tpl dpi final,
    file_at w show_image_path = Some (ImageFile tpl dpi) /\
    file_at (snd (create_multiplied_image fg_img show_image_path output_path dest_corners
                    resize_flag w)) output_path = Some (ImageFile final None) /\
    size final = size tpl.
Proof.
  destruct (create_multiplied_image _ _ _ _ _ w) as [[done | e] w'] eqn:Hrun;
    cbn [fst snd]; [ | discriminate].
  intros [= ->]. revert Hrun. unfold create_multiplied_image.
  unfold bind at 1, lift at 1.
  destruct (if negb (truthy resize_flag) then _ else _) as [fg' | e]; [ | discriminate].
  unfold bind at 1, Image_open.
  destruct (file_at w show_image_path) as [[tpl dpi | ] | ]; [ | discriminate | discriminate].
  unfold PIL.convert_RGB, size. unfold bind at 1.
  destruct (apply_perspective_transform fg' (im_w tpl) (im_h tpl) dest_corners _)
    as [[[warped | ] | e] w2] eqn:Hwarp; [ | | discriminate].
  - destruct (apply_perspective_transform_size _ _ _ _ _ _ _ Hwarp) as (Hsize & Hnew).
    rewrite (Hnew white). unfold bind at 1, lift at 1.
    set (canvas := PIL.paste _ warped (0, 0)).
    destruct (apply_multiply_blend_same_size tpl canvas) as (final & Hblend & Hfs & _);
      [reflexivity | ].
    unfold bind at 1, lift at 1. rewrite Hblend.
    unfold bind at 1, Image_save. destruct (save_error output_path); [discriminate | ].
    unfold bind, print, emit, ret. cbn [fs events]. intros [= <-].
    exists tpl, dpi, final. split; [done | ]. split; [ | done].
    unfold file_at. cbn [fs]. apply lookup_insert_eq.
  - unfold bind, print, emit, ret. discriminate.
Qed.

(** C6, as amended.  When the solve on the corners of the resized
    foreground raises the singular-matrix error,
    [apply_perspective_transform] catches it, prints its error line and
    returns no image, and [create_multiplied_image], on a readable
    template, prints the failure, saves nothing and returns [False]; the
    file system is left as it was, for the composites that follow. *)
Theorem singular_solve_fails_the_composite fg_img show_image_path output_path dest_corners
    resize_flag w (W H : Z) fg' tpl dpi :
  (W, H) = (if truthy resize_flag then (393, 654) else (1071, 1500)) ->
  PIL.resize fg_img (W, H) = Ok fg' ->
  file_at w show_image_path = Some (ImageFile tpl dpi) ->
  find_perspective_coeffs [0; 0; W; 0; W; H; 0; H] dest_corners = Raise LinAlgError ->
  (forall target_w target_h w1,
     apply_perspective_transform fg' target_w target_h dest_corners w1 =
       (Ok None,
        mkWorld (fs w1)
          (events w1 ++
             [Printed "Error: Could not calculate perspective matrix. Check for impossible geometry."]))) /\
  create_multiplied_image fg_img show_image_path output_path dest_corners resize_flag w =
    (Ok false,
     mkWorld (fs w)
       (events w ++
          [Opened show_image_path;
           Printed "Error: Could not calculate perspective matrix. Check for impossible geometry.";
           Printed ("[ERROR] Failed to apply perspective transform for " +:+ output_path)])).
Proof.
  intros HWH Hresize Hshow Hsing.
  pose proof (resize_size _ _ _ _ Hresize) as Hsize. injection Hsize as Hw Hh.
  assert (forall target_w target_h w1,
            apply_perspective_transform fg' target_w target_h dest_corners w1 =
              (Ok None,
               mkWorld (fs w1)
                 (events w1 ++
                    [Printed "Error: Could not calculate perspective matrix. Check for impossible geometry."])))
    as Hwarp.
  { intros target_w target_h w1. apply apply_perspective_transform_singular.
    by rewrite Hw, Hh. }
  split; [exact Hwarp | ].
  unfold create_multiplied_image.
  assert ((if negb (truthy resize_flag)
           then PIL.resize fg_img (1071, 1500)
           else PIL.resize fg_img (393, 654)) = Ok fg') as ->.
  { destruct (truthy resize_flag); cbn [negb]; injection HWH as -> ->; exact Hresize. }
  unfold bind at 1, lift at 1.
  rewrite (bind_Ok _ _ _ _ _ (Image_open_run _ _ _ _ Hshow)).
  unfold PIL.convert_RGB, size. rewrite (bind_Ok _ _ _ _ _ (Hwarp _ _ _)).
  unfold bind, print, emit, ret. cbn [fs events]. by rewrite <- !app_assoc.
Qed.

(** C10. [create_multiplied_image] and the composite without the white
    canvas agree on every input: the same return value or exception, the
    same events, and the same content in every file; in particular the
    saved composite is the blend of the template with the warped
    foreground itself. *)
Theorem white_canvas_is_redundant fg_img show_image_path output_path dest_corners
    resize_flag w :
  same_run
    (create_multiplied_image fg_img show_image_path output_path dest_corners resize_flag w)
    (create_multiplied_image_direct fg_img show_image_path output_path dest_corners
       resize_flag w).
Proof.
  unfold create_multiplied_image, create_multiplied_image_direct.
  apply same_run_bind. intros fg' w0 _.
  apply same_run_bind. intros base_img w1 _.
  unfold PIL.convert_RGB, size.
  apply same_run_bind. intros [warped | ] w2 Hwarp; [ | apply same_run_refl].
  destruct (apply_perspective_transform_size _ _ _ _ _ _ _ Hwarp) as (Hsize & Hnew).
  rewrite (Hnew white). unfold bind at 1, lift at 1.
  set (blank := mkImage (im_w base_img) (im_h base_img) (fun _ _ => white)).
  pose proof (apply_multiply_blend_same_image base_img (PIL.paste blank warped (0, 0)) warped
                (paste_full_canvas blank warped Hsize)) as Hblend.
  unfold bind at 1 4, lift at 1 2.
  destruct (apply_multiply_blend base_img (PIL.paste blank warped (0, 0))) as [r1 | e1];
    destruct (apply_multiply_blend base_img warped) as [r2 | e2]; try done.
  - unfold bind at 1 3, Image_save.
    destruct (save_error output_path); [apply same_run_refl | ].
    unfold bind, print, emit, ret. cbn [fs events fst snd].
    split; [done | ]. split; [done | ]. intros p. cbn [fs snd].
    destruct (decide (realpath output_path = p)) as [<- | Hne].
    + rewrite !lookup_insert_eq. by split.
    + rewrite !lookup_insert_ne by done. apply same_file_refl.
  - subst e2. apply same_run_refl.
Qed.

End Templates.

Section Orchestration.

Context {S : Solver} {R : Resampler} {O : Host}.


(** C8.  When one of the three template paths names no file, the run
    stops at the template check: nothing is opened or written; it returns
    failure with a message that names a missing template path. *)
Theorem missing_template_aborts input_path output_folder script_dir w :
  (exists p, p ∈ [os.path_join script_dir "show.png"; os.path_join script_dir "show2.jpg";
                  os.path_join script_dir "show3.png"] /\ file_at w p = None) ->
  exists p,
    p ∈ [os.path_join script_dir "show.png"; os.path_join script_dir "show2.jpg";
         os.path_join script_dir "show3.png"] /\
    file_at w p = None /\
    process_image input_path output_folder script_dir w =
      (Ok (false, [], "Missing template file: " +:+ p),
       mkWorld (fs w)
         (events w ++
            [Printed ("[ERROR] Missing template file: " +:+ p);
             Printed "Please ensure show.png, show2.jpg, and show3.png are in the script directory."])).
Proof.
  intros Hmiss. destruct (check_templates_missing _ w Hmiss) as (p & Hin & Hp & Hrun).
  exists p. split; [done | ]. split; [done | ].
  unfold process_image, process_image_with.
  rewrite (bind_Ok _ _ _ _ _ Hrun). reflexivity.
Qed.

End Orchestration.

(** ** The results on sample runs *)

Lemma composite_of_gradient :
  exists tpl dpi final,
    @file_at plain_host two_folders "t/show.png" = Some (ImageFile tpl dpi) /\
    @file_at plain_host
      (snd (@create_multiplied_image LinAlg.reference nearest_neighbour plain_host
              (gradient 20 30) "t/show.png" "in/show.png" DEST_COORDINATES None two_folders))
      "in/show.png" = Some (ImageFile final None) /\
    size final = size tpl.
Proof.
  apply (@composite_has_template_size LinAlg.reference nearest_neighbour plain_host
           (gradient 20 30) "t/show.png" "in/show.png" DEST_COORDINATES None two_folders).
  vm_compute. reflexivity.
Defined.

Lemma corners_on_a_diagonal_fail_the_composite :
  @find_perspective_coeffs LinAlg.reference [0; 0; 1071; 0; 1071; 1500; 0; 1500]
    [0; 0; 1; 1; 2; 2; 3; 3] = Raise LinAlgError /\
  @create_multiplied_image LinAlg.reference nearest_neighbour plain_host (gradient 20 30)
      "t/show.png" "in/show.png" [0; 0; 1; 1; 2; 2; 3; 3] None two_folders =
    (Ok false,
     mkWorld (fs two_folders)
       [Opened "t/show.png";
        Printed "Error: Could not calculate perspective matrix. Check for impossible geometry.";
        Printed "[ERROR] Failed to apply perspective transform for in/show.png"]).
Proof.
  assert (@find_perspective_coeffs LinAlg.reference [0; 0; 1071; 0; 1071; 1500; 0; 1500]
            [0; 0; 1; 1; 2; 2; 3; 3] = Raise LinAlgError) as Hsolve
    by (vm_compute; reflexivity).
  split; [exact Hsolve | ].
  eapply (@singular_solve_fails_the_composite LinAlg.reference nearest_neighbour plain_host
            (gradient 20 30) "t/show.png" "in/show.png" [0; 0; 1; 1; 2; 2; 3; 3] None
            two_folders 1071 1500).
  - reflexivity.
  - reflexivity.
  - reflexivity.
  - exact Hsolve.
Defined.

Lemma degenerate_corners_are_solved :
  (exists coeffs,
     @find_perspective_coeffs LinAlg.reference [0; 0; 1071; 0; 1071; 1500; 0; 1500]
       [0; 0; 0; 0; 1; 1; 0; 1] = Ok coeffs) /\
  fst (@create_multiplied_image LinAlg.reference nearest_neighbour plain_host (gradient 20 30)
         "t/show.png" "in/show.png" [0; 0; 0; 0; 1; 1; 0; 1] None two_folders) = Ok true /\
  (exists coeffs,
     @find_perspective_coeffs LinAlg.reference [0; 0; 1071; 0; 1071; 1500; 0; 1500]
       [0; 0; 1; 1; 6; 6; 2; 2] = Ok coeffs) /\
  fst (@create_multiplied_image LinAlg.reference nearest_neighbour plain_host (gradient 20 30)
         "t/show.png" "in/show.png" [0; 0; 1; 1; 6; 6; 2; 2] None two_folders) = Ok true.
Proof.
  split; [ | split; [ | split]].
  - eexists. vm_compute. reflexivity.
  - vm_compute. reflexivity.
  - eexists. vm_compute. reflexivity.
  - vm_compute. reflexivity.
Qed.



Lemma second_template_missing :
  exists p,
    p ∈ ["t/show.png"; "t/show2.jpg"; "t/show3.png"] /\
    @file_at plain_host one_template p = None /\
    @process_image LinAlg.reference nearest_neighbour plain_host "in/a.png" "in" "t"
        one_template =
      (Ok (false, [], "Missing template file: " +:+ p),
       mkWorld (fs one_template)
         [Printed ("[ERROR] Missing template file: " +:+ p);
          Printed "Please ensure show.png, show2.jpg, and show3.png are in the script directory."]).
Proof.
  apply (@missing_template_aborts LinAlg.reference nearest_neighbour plain_host "in/a.png" "in"
           "t" one_template).
  exists "t/show2.jpg". split; [ | reflexivity].
  apply elem_of_cons. right. apply elem_of_cons. by left.
Defined.

(** C9.  The run of the script on an image that lies in the script's own
    folder: the output folder is the template folder, and the composite
    saved as show.png replaces the template show.png.  The template's
    pixel (399, 399) is (200, 200, 200) before the run and (78, 78, 78)
    after it. *)
Theorem template_overwritten_in_script_folder :
  @file_at plain_host
    (snd (@process_image LinAlg.reference nearest_neighbour plain_host "t/in.png" "t" "t"
            script_folder)) "t/show.png" <>
    @file_at plain_host script_folder "t/show.png" /\
  @pixel_at plain_host script_folder "t/show.png" 399 399 = Some (200, 200, 200) /\
  @pixel_at plain_host
    (snd (@process_image LinAlg.reference nearest_neighbour plain_host "t/in.png" "t" "t"
            script_folder)) "t/show.png" 399 399 = Some (78, 78, 78).
Proof.
  assert (@pixel_at plain_host script_folder "t/show.png" 399 399 = Some (200, 200, 200))
    as Hbefore by (vm_compute; reflexivity).
  assert (@pixel_at plain_host
            (snd (@process_image LinAlg.reference nearest_neighbour plain_host "t/in.png" "t"
                    "t" script_folder)) "t/show.png" 399 399 = Some (78, 78, 78)) as Hafter
    by (vm_compute; reflexivity).
  split; [ | exact (conj Hbefore Hafter)].
  intros Heq.
  assert (Some (78, 78, 78) = Some (200, 200, 200)) as Habs.
  { rewrite <- Hafter, <- Hbefore. unfold pixel_at. rewrite Heq. reflexivity. }
  discriminate Habs.
Qed.

(** * Further properties of the pipeline *)

(** ** The utility functions *)

Section Utilities.

Import Float64.

Context {R : Resampler}.

(** X1.  Whenever [resize_cover] returns, the image it returns has exactly
    the target size, whatever the size of the input. *)
Theorem resize_cover_returns_target_size img target_w target_h img' :
  resize_cover img target_w target_h = Ok img' -> size img' = (target_w, target_h).
Proof. apply resize_cover_size. Qed.

(** X2.  For an image with sides between 1 and 2^31 - 1 and a target of at
    least 2 pixels a side, the arithmetic of [resize_cover] never fails:
    the scaled sides are at least one pixel and the crop box is well
    formed.  It returns an image, unless Pillow refuses one of the two
    sizes it is asked for, and then it raises Pillow's exception. *)
Theorem resize_cover_fails_only_on_size img target_w target_h :
  0 < im_w img < 2 ^ 31 -> 0 < im_h img < 2 ^ 31 ->
  2 <= target_w < 2 ^ 31 -> 2 <= target_h < 2 ^ 31 ->
  (exists img', resize_cover img target_w target_h = Ok img') \/
  (exists w h e, size_error w h = Some e /\ resize_cover img target_w target_h = Raise e).
Proof.
  intros Hw Hh Htw Hth. unfold resize_cover, size. cbn [obind].
  pose proof (Zdigits2_pos (im_w img) ltac:(lia)) as Hdw0.
  pose proof (Zdigits2_pos (im_h img) ltac:(lia)) as Hdh0.
  pose proof (Zdigits2_le (im_w img) 31 ltac:(lia) ltac:(lia)) as Hdw.
  pose proof (Zdigits2_le (im_h img) 31 ltac:(lia) ltac:(lia)) as Hdh.
  pose proof (Zdigits2_ge target_w 1 ltac:(lia) ltac:(simpl; lia)) as Hdtw0.
  pose proof (Zdigits2_ge target_h 1 ltac:(lia) ltac:(simpl; lia)) as Hdth0.
  pose proof (Zdigits2_le target_w 31 ltac:(lia) ltac:(lia)) as Hdtw.
  pose proof (Zdigits2_le target_h 31 ltac:(lia) ltac:(lia)) as Hdth.
  destruct (truediv_normal target_w (im_w img)) as (mw & ew & -> & Hmw & Hew); [lia .. | ].
  destruct (truediv_normal target_h (im_h img)) as (mh & eh & -> & Hmh & Heh); [lia .. | ].
  cbn [obind].
  destruct (max_normal mw ew mh eh) as (ms & es & -> & Hs & Hes1 & Hes2).
  assert (Zdigits2 (Z.pos ms) = 53) as Hms by (destruct Hs as [[-> _] | [-> _]]; done).
  assert (es <= 31) as Hes3 by (destruct Hs as [[_ ->] | [_ ->]]; lia).
  destruct (scaled_side (im_w img) ms es Hw Hms ltac:(lia)) as (new_w & Hnw & Hnw1).
  destruct (scaled_side (im_h img) ms es Hh Hms ltac:(lia)) as (new_h & Hnh & Hnh1).
  unfold obind in Hnw, Hnh.
  destruct (mul_int (im_w img) _) as [fw|]; [ | discriminate]. cbn [obind]. rewrite Hnw.
  cbn [obind].
  destruct (mul_int (im_h img) _) as [fh|]; [ | discriminate]. cbn [obind]. rewrite Hnh.
  cbn [obind].
  assert ((exists img_copy, PIL.resize (PIL.copy img) (new_w, new_h) = Ok img_copy) \/
          (exists e, size_error new_w new_h = Some e /\
                     PIL.resize (PIL.copy img) (new_w, new_h) = Raise e)) as Hres.
  { unfold PIL.resize, PIL.alloc.
    destruct ((im_w (PIL.copy img) =? new_w) && (im_h (PIL.copy img) =? new_h));
      [left; by eexists | ].
    destruct (Z.ltb_spec new_w 1); [lia | ]. destruct (Z.ltb_spec new_h 1); [lia | ].
    cbn [orb]. destruct (size_error new_w new_h) as [e | ]; [right | left]; by eexists. }
  destruct Hres as [[img_copy ->] | (e & He & ->)]; cbn [obind];
    [ | right; by exists new_w, new_h, e].
  unfold PIL.crop, PIL.alloc.
  destruct (Z.ltb_spec ((new_w - target_w) `div` 2 + target_w) ((new_w - target_w) `div` 2));
    [lia | ].
  destruct (Z.ltb_spec ((new_h - target_h) `div` 2 + target_h) ((new_h - target_h) `div` 2));
    [lia | ].
  destruct (size_error _ _) as [e | ] eqn:He; [right | left; by eexists].
  eexists _, _, e. split; [exact He | reflexivity].
Qed.

(** X3.  The multiply blend is commutative: when it accepts two images in
    one order it accepts them in the other, and returns the same raster. *)
Theorem multiply_blend_commutative (a b c : Image) :
  apply_multiply_blend a b = Ok c ->
  exists c', apply_multiply_blend b a = Ok c' /\ size c' = size c /\
             forall x y, im_px c' x y = im_px c x y.
Proof.
  unfold apply_multiply_blend, broadcast.
  rewrite (broadcast_axis_comm (im_h b)), (broadcast_axis_comm (im_w b)).
  destruct (broadcast_axis (im_h a) (im_h b)) as [h | ]; [ | discriminate].
  destruct (broadcast_axis (im_w a) (im_w b)) as [w | ]; [ | discriminate].
  cbn [obind]. intros [= <-]. eexists. split; [reflexivity | ]. split; [reflexivity | ].
  intros x y. cbn [im_px]. apply blend_pixel_comm.
Qed.

(** X4.  Two images that differ in a side, neither of the two lengths
    being 1, are refused by the multiply blend with NumPy's broadcasting
    error. *)
Theorem multiply_blend_rejects_mismatch (a b : Image) :
  (im_w a <> im_w b /\ im_w a <> 1 /\ im_w b <> 1) \/
  (im_h a <> im_h b /\ im_h a <> 1 /\ im_h b <> 1) ->
  apply_multiply_blend a b =
    Raise (ValueError ("operands could not be broadcast together with shapes " +:+
                       shape_str a +:+ " " +:+ shape_str b +:+ " ")).
Proof.
  intros Hm. unfold apply_multiply_blend, broadcast.
  assert (broadcast_axis (im_w a) (im_w b) = None \/
          broadcast_axis (im_h a) (im_h b) = None) as [Hn | Hn].
  { unfold broadcast_axis. destruct Hm as [(H1 & H2 & H3) | (H1 & H2 & H3)]; [left | right].
    - destruct (Z.eqb_spec (im_w a) (im_w b)); [done | ].
      destruct (Z.eqb_spec (im_w a) 1); [done | ]. by destruct (Z.eqb_spec (im_w b) 1).
    - destruct (Z.eqb_spec (im_h a) (im_h b)); [done | ].
      destruct (Z.eqb_spec (im_h a) 1); [done | ]. by destruct (Z.eqb_spec (im_h b) 1). }
  - rewrite Hn. by destruct (broadcast_axis (im_h a) (im_h b)).
  - by rewrite Hn.
Qed.

End Utilities.


(** ** The stages and the whole run *)

Section Effects.

Context {S : Solver} {R : Resampler} {O : Host}.

(** X5.  A destination table with fewer than eight numbers is not reported
    as a failed transform: building the system raises IndexError, which
    [apply_perspective_transform] does not catch, and nothing is printed. *)
Theorem short_table_raises_IndexError img target_w target_h dest_corners w :
  (length dest_corners < 8)%nat ->
  apply_perspective_transform img target_w target_h dest_corners w = (Raise IndexError, w).
Proof.
  intros Hlen. unfold apply_perspective_transform, size.
  assert (find_perspective_coeffs [0; 0; im_w img; 0; im_w img; im_h img; 0; im_h img]
            dest_corners = Raise IndexError) as ->; [ | reflexivity].
  unfold find_perspective_coeffs.
  do 8 (destruct dest_corners as [ | ? dest_corners]; [reflexivity | ]).
  simpl in Hlen. lia.
Qed.

(** X6.  [delete_file] is safe: when the operating system refuses a
    removal only with an OSError, it never raises; it leaves every other
    file as it was; and when the removal is not refused, the path names no
    file afterwards. *)
Theorem delete_file_is_safe filepath w :
  (forall e, remove_error filepath = Some e -> is_OSError e = true) ->
  fst (delete_file filepath w) = Ok tt /\
  (forall q, realpath q <> realpath filepath ->
             file_at (snd (delete_file filepath w)) q = file_at w q) /\
  (remove_error filepath = None -> file_at (snd (delete_file filepath w)) filepath = None).
Proof.
  intros Hos. unfold delete_file. rewrite (bind_Ok _ _ _ _ _ (path_exists_run _ _)).
  destruct (file_at w filepath) as [f | ] eqn:Hf.
  - unfold try_except, bind, os.remove. rewrite Hf.
    destruct (remove_error filepath) as [e | ] eqn:He.
    + rewrite (Hos e eq_refl). unfold print, emit. cbn [fst snd].
      split; [done | ]. split; [intros; reflexivity | intros [=]].
    + unfold print, emit. cbn [fst snd]. split; [done | ]. unfold file_at. cbn [fs].
      split.
      * intros q Hq. by apply lookup_delete_ne.
      * intros _. apply lookup_delete_eq.
  - unfold print, emit. cbn [fst snd]. split; [done | ]. split; [intros; reflexivity | ].
    intros _. exact Hf.
Qed.

(** X7.  An input that cannot be opened as an image (no file, or a file
    that is no image) makes the run return failure with the reason, after
    the template check and before anything is written. *)
Theorem unreadable_input_fails input_path output_folder script_dir w :
  fst (check_templates
         [os.path_join script_dir "show.png"; os.path_join script_dir "show2.jpg";
          os.path_join script_dir "show3.png"] w) = Ok None ->
  is_image w input_path = false ->
  exists e,
    process_image input_path output_folder script_dir w =
      (Ok (false, [], "Error opening image: " +:+ exn_str e),
       mkWorld (fs w)
         (events w ++
            [Opened input_path;
             Printed ("[ERROR] Error opening image " +:+ input_path +:+ ": " +:+ exn_str e)])).
Proof.
  intros Hcheck Hin. apply check_templates_passed in Hcheck.
  unfold process_image, process_image_with. rewrite (bind_Ok _ _ _ _ _ Hcheck).
  unfold is_image in Hin. unfold bind at 1, try_except, bind at 1, Image_open.
  destruct (file_at w input_path) as [[img dpi | ] | ]; [discriminate | | ].
  - exists (UnidentifiedImageError input_path). unfold Exception, bind, print, emit, ret.
    cbn [fs events]. by rewrite <- app_assoc.
  - exists (FileNotFoundError input_path). unfold Exception, bind, print, emit, ret.
    cbn [fs events]. by rewrite <- app_assoc.
Qed.

(** X8.  A run whose output folder cannot be written (the save of
    output.png is refused) does not return the failure tuple: an exception
    escapes [process_image], and no file has been written. *)
Theorem unwritable_folder_raises input_path output_folder script_dir w e :
  fst (check_templates
         [os.path_join script_dir "show.png"; os.path_join script_dir "show2.jpg";
          os.path_join script_dir "show3.png"] w) = Ok None ->
  is_image w input_path = true ->
  save_error (os.path_join output_folder "output.png") = Some e ->
  exists e',
    process_image input_path output_folder script_dir w =
      (Raise e',
       mkWorld (fs w)
         (events w ++
            [Opened input_path;
             Printed ("[INFO] Processing: " +:+ os.path_basename input_path)])).
Proof.
  intros Hcheck Hin Hsave. apply check_templates_passed in Hcheck.
  apply is_image_spec in Hin as (img & dpi & Hin).
  unfold process_image, process_image_with. rewrite (bind_Ok _ _ _ _ _ Hcheck).
  unfold bind at 1, try_except.
  rewrite (bind_Ok _ _ _ _ _ (Image_open_run _ _ _ _ Hin)).
  unfold bind at 1, print, emit, ret. cbn [fs events]. rewrite <- app_assoc. cbn [app].
  unfold bind at 1, create_bordered_image.
  unfold bind at 1, lift at 1.
  destruct (PIL.new (3900, 5700) white) as [canvas0 | e0]; [ | by exists e0].
  unfold bind at 1, lift at 1.
  destruct (PIL.new (3660, 5460) (57, 255, 20)) as [box1 | e1]; [ | by exists e1].
  unfold bind at 1, lift at 1.
  destruct (resize_cover _ 3567 5374) as [art | e2]; [ | by exists e2].
  unfold bind at 1, Image_save at 1. rewrite Hsave. by exists e.
Qed.

(** X9.  Whatever a run returns or raises, it writes no file but its five
    outputs: every path whose real path is not that of output.png,
    print.png, show.png, show2.png or show3.png in the output folder names
    after the run the file it named before. *)
Theorem run_writes_only_its_outputs input_path output_folder script_dir w q :
  realpath q ∉
    map realpath
      [os.path_join output_folder "output.png"; os.path_join output_folder "print.png";
       os.path_join output_folder "show.png"; os.path_join output_folder "show2.png";
       os.path_join output_folder "show3.png"] ->
  file_at (snd (process_image input_path output_folder script_dir w)) q = file_at w q.
Proof.
  intros Hq. unfold file_at, process_image.
  by apply writes_only_process_image_with.
Qed.

(** X10.  When several templates are missing, the run names the first of
    them in the order show.png, show2.jpg, show3.png. *)
Theorem first_missing_template_is_named input_path output_folder script_dir w present p rest :
  [os.path_join script_dir "show.png"; os.path_join script_dir "show2.jpg";
   os.path_join script_dir "show3.png"] = present ++ p :: rest ->
  Forall (fun q => is_Some (file_at w q)) present ->
  file_at w p = None ->
  process_image input_path output_folder script_dir w =
    (Ok (false, [], "Missing template file: " +:+ p),
     mkWorld (fs w)
       (events w ++
          [Printed ("[ERROR] Missing template file: " +:+ p);
           Printed "Please ensure show.png, show2.jpg, and show3.png are in the script directory."])).
Proof.
  intros Hsplit Hpresent Hp. unfold process_image, process_image_with.
  rewrite Hsplit. clear Hsplit.
  assert (check_templates (present ++ p :: rest) w =
            (Ok (Some p),
             mkWorld (fs w)
               (events w ++
                  [Printed ("[ERROR] Missing template file: " +:+ p);
                   Printed "Please ensure show.png, show2.jpg, and show3.png are in the script directory."])))
    as Hrun.
  { induction present as [ | q present IH]; simpl.
    - unfold bind at 1. rewrite path_exists_run, Hp. simpl.
      unfold bind, print, emit, ret. cbn [fs events]. by rewrite <- app_assoc.
    - apply Forall_cons in Hpresent as [[f Hq] Hpresent].
      unfold bind at 1. rewrite path_exists_run, Hq. simpl. by apply IH. }
  by rewrite (bind_Ok _ _ _ _ _ Hrun).
Qed.

(** X11.  A template that exists but is no image is not reported as a
    failed composite: [create_multiplied_image] raises, and saves
    nothing. *)
Theorem unreadable_template_raises fg_img show_image_path output_path dest_corners
    resize_flag w fg' :
  (if truthy resize_flag then PIL.resize fg_img (393, 654)
   else PIL.resize fg_img (1071, 1500)) = Ok fg' ->
  file_at w show_image_path = Some OtherFile ->
  create_multiplied_image fg_img show_image_path output_path dest_corners resize_flag w =
    (Raise (UnidentifiedImageError show_image_path),
     mkWorld (fs w) (events w ++ [Opened show_image_path])).
Proof.
  intros Hres Htpl. unfold create_multiplied_image.
  unfold bind at 1, lift at 1.
  destruct (truthy resize_flag); cbn [negb]; rewrite Hres;
    unfold bind at 1, Image_open; by rewrite Htpl.
Qed.

(** X12.  Whenever a run returns, its three components agree: the success
    flag is set exactly when the list of outputs is not empty, and exactly
    when the error message is empty. *)
Theorem result_is_consistent dest1 dest2 dest3 input_path output_folder script_dir w
    (ok : bool) (files : list string) (msg : string) :
  fst (process_image_with dest1 dest2 dest3 input_path output_folder script_dir w) =
    Ok (ok, files, msg) ->
  (ok = true <-> files <> []) /\ (ok = true <-> msg = "").
Proof.
  destruct (process_image_with dest1 dest2 dest3 input_path output_folder script_dir w)
    as [o wf] eqn:Hrun.
  cbn [fst]. intros ->. unfold process_image_with in Hrun.
  apply bind_inv in Hrun as (missing & w1 & _ & Hrun).
  destruct missing as [p | ].
  { unfold ret in Hrun. injection Hrun as <- <- <- _. by split; split. }
  apply bind_inv in Hrun as (loaded & wa & Hload & Hrun).
  destruct loaded as [fg_img | m]; cycle 1.
  { unfold ret in Hrun. injection Hrun as <- <- <- _.
    assert (m <> "") as Hm.
    { unfold try_except in Hload.
      match type of Hload with
      | context [match ?c with _ => _ end] => destruct c as [[a | e] w'] eqn:Hin
      end.
      - apply bind_inv in Hin as (img & w2 & _ & Hin).
        unfold bind, print, emit, ret in Hin. injection Hin as <- _. discriminate Hload.
      - unfold Exception, bind, print, emit, ret in Hload. injection Hload as <- _.
        discriminate. }
    split; split; intros Hx; try discriminate Hx; by destruct Hx || destruct (Hm Hx). }
  apply bind_inv in Hrun as ([] & wb & _ & Hrun).
  rewrite (bind_Ok _ _ _ _ _ (path_exists_run _ _)) in Hrun.
  destruct (file_at wb _) as [out | ]; cbn [negb] in Hrun; cycle 1.
  { apply bind_inv in Hrun as ([] & wc & _ & Hrun).
    unfold ret in Hrun. injection Hrun as <- <- <- _. by split; split. }
  apply bind_inv in Hrun as (art & wc & _ & Hrun).
  apply bind_inv in Hrun as (files1 & w2 & _ & Hrun).
  apply bind_inv in Hrun as (files2 & w3 & _ & Hrun).
  apply bind_inv in Hrun as (files3 & w4 & _ & Hrun).
  apply bind_inv in Hrun as ([] & w5 & _ & Hrun).
  destruct files3 as [ | path files3]; cbn in Hrun; unfold ret in Hrun;
    injection Hrun as <- <- <- _; by split; split.
Qed.

(** X13.  A run that went through its stages and returned leaves the
    print: print.png in the output folder holds a 3900x5700 canvas at 300
    dpi, provided it is no other output file under another name; and the
    intermediate output.png is gone, provided its removal was not
    refused. *)
Theorem completed_run_leaves_the_print dest1 dest2 dest3 input_path output_folder
    script_dir w r :
  fst (process_image_with dest1 dest2 dest3 input_path output_folder script_dir w) = Ok r ->
  fst (check_templates
         [os.path_join script_dir "show.png"; os.path_join script_dir "show2.jpg";
          os.path_join script_dir "show3.png"] w) = Ok None ->
  is_image w input_path = true ->
  (remove_error (os.path_join output_folder "output.png") = None ->
   file_at (snd (process_image_with dest1 dest2 dest3 input_path output_folder script_dir w))
     (os.path_join output_folder "output.png") = None) /\
  (realpath (os.path_join output_folder "print.png") ∉
     map realpath
       [os.path_join output_folder "output.png"; os.path_join output_folder "show.png";
        os.path_join output_folder "show2.png"; os.path_join output_folder "show3.png"] ->
   exists canvas,
     file_at (snd (process_image_with dest1 dest2 dest3 input_path output_folder script_dir w))
       (os.path_join output_folder "print.png") = Some (ImageFile canvas (Some (300, 300))) /\
     size canvas = (3900, 5700)).
Proof.
  destruct (process_image_with dest1 dest2 dest3 input_path output_folder script_dir w)
    as [o wf] eqn:Hrun.
  cbn [fst snd]. intros -> Hcheck Hin.
  apply check_templates_passed in Hcheck.
  apply is_image_spec in Hin as (img & dpi & Hin).
  unfold process_image_with in Hrun.
  rewrite (bind_Ok _ _ _ _ _ Hcheck) in Hrun.
  apply bind_inv in Hrun as (loaded & wa & Hload & Hrun).
  unfold try_except in Hload.
  rewrite (bind_Ok _ _ _ _ _ (Image_open_run _ _ _ _ Hin)) in Hload.
  unfold bind, print, emit, ret in Hload. injection Hload as <- <-.
  apply bind_inv in Hrun as ([] & wb & Hbord & Hrun).
  pose proof (create_bordered_image_saved _ _ _ _ Hbord) as Hout.
  apply is_image_spec in Hout as (art & dpi' & Hout).
  rewrite (bind_Ok _ _ _ _ _ (path_exists_run _ _)) in Hrun.
  rewrite Hout in Hrun. cbn [negb] in Hrun.
  rewrite (bind_Ok _ _ _ _ _ (Image_open_run _ _ _ _ Hout)) in Hrun.
  apply bind_inv in Hrun as (files1 & w2 & Hstep1 & Hrun).
  apply bind_inv in Hrun as (files2 & w3 & Hstep2 & Hrun).
  apply bind_inv in Hrun as (files3 & w4 & Hstep3 & Hrun).
  apply bind_inv in Hrun as ([] & w5 & Hdel & Hrun).
  assert (wf = w5) as ->.
  { destruct (0 <? Z.of_nat (length files3)); unfold ret in Hrun; by injection Hrun. }
  assert (w5 = snd (delete_file (os.path_join output_folder "output.png") w4)) as Hw5
    by (by rewrite Hdel).
  split.
  - intros Hrm. rewrite Hw5. by apply delete_file_gone.
  - intros Hp.
    destruct (create_bordered_image_inv _ _ _ _ Hbord)
      as (art0 & canvas0 & box1 & Hc0 & Hb1 & Hart & Hwb).
    assert (forall k, k ∉ map realpath [os.path_join output_folder "output.png"] ->
                      fs w5 !! k = fs w4 !! k) as F4.
    { intros k Hk. eapply writes_only_run; [ | exact Hdel | exact Hk].
      apply writes_only_delete_file. set_solver. }
    assert (forall k, k ∉ map realpath [os.path_join output_folder "show3.png"] ->
                      fs w4 !! k = fs w3 !! k) as F3.
    { intros k Hk. eapply writes_only_run; [ | exact Hstep3 | exact Hk].
      apply writes_only_composite_step. set_solver. }
    assert (forall k, k ∉ map realpath [os.path_join output_folder "show2.png"] ->
                      fs w3 !! k = fs w2 !! k) as F2.
    { intros k Hk. eapply writes_only_run; [ | exact Hstep2 | exact Hk].
      apply writes_only_composite_step. set_solver. }
    assert (forall k, k ∉ map realpath [os.path_join output_folder "show.png"] ->
                      fs w2 !! k =
                      fs (mkWorld (fs wb)
                            (events wb ++ [Opened (os.path_join output_folder "output.png")]))
                        !! k) as F1.
    { intros k Hk. eapply writes_only_run; [ | exact Hstep1 | exact Hk].
      apply writes_only_composite_step. set_solver. }
    simpl in Hp, F1, F2, F3, F4.
    apply not_elem_of_cons in Hp as [Hp0 Hp]. apply not_elem_of_cons in Hp as [Hp1 Hp].
    apply not_elem_of_cons in Hp as [Hp2 Hp]. apply not_elem_of_cons in Hp as [Hp3 _].
    eexists. split.
    + unfold file_at.
      rewrite F4, F3, F2, F1
        by (apply not_elem_of_cons; split; [assumption | apply not_elem_of_nil]).
      rewrite Hwb. cbn [fs]. apply lookup_insert_eq.
    + pose proof (new_size _ _ _ _ Hc0) as Hs0. injection Hs0 as Hw0 Hh0.
      unfold size, PIL.paste. cbn [im_w im_h]. congruence.
Qed.

End Effects.

(** ** The further properties on sample inputs *)

Lemma resize_cover_of_gradient :
  exists img',
    @resize_cover nearest_neighbour (gradient 20 30) 3567 5374 = Ok img' /\
    size img' = (3567, 5374).
Proof.
  assert (match @resize_cover nearest_neighbour (gradient 20 30) 3567 5374 with
          | Ok _ => true
          | Raise _ => false
          end = true) as Hok by (vm_compute; reflexivity).
  destruct (@resize_cover nearest_neighbour (gradient 20 30) 3567 5374) as [img' | e] eqn:Hrun.
  - exists img'. split; [reflexivity | ].
    exact (resize_cover_returns_target_size (R:=nearest_neighbour) _ _ _ _ Hrun).
  - discriminate Hok.
Defined.

Lemma resize_cover_of_gradient_returns :
  (exists img', @resize_cover nearest_neighbour (gradient 20 30) 3567 5374 = Ok img') \/
  (exists w h e,
     @size_error nearest_neighbour w h = Some e /\
     @resize_cover nearest_neighbour (gradient 20 30) 3567 5374 = Raise e).
Proof.
  apply (resize_cover_fails_only_on_size (R:=nearest_neighbour) (gradient 20 30) 3567 5374);
    simpl; lia.
Defined.

Lemma multiply_blend_of_gradient_commutes :
  exists c c',
    apply_multiply_blend (gradient 4 5) (flat 4 5 (200, 100, 50)) = Ok c /\
    apply_multiply_blend (flat 4 5 (200, 100, 50)) (gradient 4 5) = Ok c' /\
    size c' = size c /\
    forall x y, im_px c' x y = im_px c x y.
Proof.
  destruct (apply_multiply_blend_same_size (gradient 4 5) (flat 4 5 (200, 100, 50)) eq_refl)
    as (c & Hrun & _).
  destruct (multiply_blend_commutative _ _ _ Hrun) as (c' & Hc' & Hsize & Hpx).
  exists c, c'. exact (conj Hrun (conj Hc' (conj Hsize Hpx))).
Defined.

Lemma multiply_blend_of_two_sizes :
  apply_multiply_blend (flat 4 5 white) (flat 6 7 white) =
    Raise (ValueError "operands could not be broadcast together with shapes (5,4,3) (7,6,3) ").
Proof.
  apply (multiply_blend_rejects_mismatch (flat 4 5 white) (flat 6 7 white)).
  left. simpl. lia.
Defined.

Lemma table_of_two_corners :
  @apply_perspective_transform LinAlg.reference nearest_neighbour (gradient 20 30) 4 5
    [0; 0; 1; 1] two_folders = (Raise IndexError, two_folders).
Proof.
  apply (short_table_raises_IndexError (S:=LinAlg.reference) (R:=nearest_neighbour)).
  simpl. lia.
Defined.

Lemma delete_file_on_read_only_host :
  fst (@delete_file read_only_host "in/a.png" two_folders) = Ok tt /\
  (forall q, @realpath read_only_host q <> @realpath read_only_host "in/a.png" ->
             @file_at read_only_host (snd (@delete_file read_only_host "in/a.png" two_folders)) q =
             @file_at read_only_host two_folders q) /\
  (@remove_error read_only_host "in/a.png" = None ->
   @file_at read_only_host (snd (@delete_file read_only_host "in/a.png" two_folders))
     "in/a.png" = None).
Proof.
  apply (delete_file_is_safe (O:=read_only_host) "in/a.png" two_folders).
  intros e [= <-]. reflexivity.
Defined.

Lemma input_that_is_missing :
  exists e,
    @process_image LinAlg.reference nearest_neighbour plain_host "in/none.png" "in" "t"
        two_folders =
      (Ok (false, [], "Error opening image: " +:+ exn_str e),
       mkWorld (fs two_folders)
         [Opened "in/none.png";
          Printed ("[ERROR] Error opening image in/none.png: " +:+ exn_str e)]).
Proof.
  apply (unreadable_input_fails (S:=LinAlg.reference) (R:=nearest_neighbour) (O:=plain_host)
           "in/none.png" "in" "t" two_folders); reflexivity.
Defined.

Lemma output_folder_that_is_missing :
  exists e',
    @process_image LinAlg.reference nearest_neighbour no_out_folder "in/a.png" "out" "t"
        two_folders =
      (Raise e',
       mkWorld (fs two_folders) [Opened "in/a.png"; Printed "[INFO] Processing: a.png"]).
Proof.
  apply (unwritable_folder_raises (S:=LinAlg.reference) (R:=nearest_neighbour)
           (O:=no_out_folder) "in/a.png" "out" "t" two_folders
           (FileNotFoundError "out/output.png")); reflexivity.
Defined.

Lemma template_of_another_folder_is_kept :
  @file_at plain_host
    (snd (@process_image LinAlg.reference nearest_neighbour plain_host "in/a.png" "in" "t"
            two_folders)) "t/show.png" =
  @file_at plain_host two_folders "t/show.png".
Proof.
  apply (run_writes_only_its_outputs (S:=LinAlg.reference) (R:=nearest_neighbour)
           (O:=plain_host) "in/a.png" "in" "t" two_folders "t/show.png").
  simpl. intros Hin.
  repeat (apply elem_of_cons in Hin as [Hin | Hin]; [discriminate Hin | ]).
  by apply elem_of_nil in Hin.
Defined.

Lemma two_templates_missing :
  @process_image LinAlg.reference nearest_neighbour plain_host "in/a.png" "in" "t"
      one_template =
    (Ok (false, [], "Missing template file: t/show2.jpg"),
     mkWorld (fs one_template)
       [Printed "[ERROR] Missing template file: t/show2.jpg";
        Printed "Please ensure show.png, show2.jpg, and show3.png are in the script directory."]).
Proof.
  apply (first_missing_template_is_named (S:=LinAlg.reference) (R:=nearest_neighbour)
           (O:=plain_host) "in/a.png" "in" "t" one_template ["t/show.png"] "t/show2.jpg"
           ["t/show3.png"]).
  - reflexivity.
  - apply Forall_cons. split; [by eexists | by apply Forall_nil].
  - reflexivity.
Defined.

Lemma second_template_is_no_image :
  @create_multiplied_image LinAlg.reference nearest_neighbour plain_host (gradient 20 30)
      "t/show2.jpg" "in/show2.png" DEST_COORDINATES2 (Some true) unreadable_second =
    (Raise (UnidentifiedImageError "t/show2.jpg"),
     mkWorld (fs unreadable_second) [Opened "t/show2.jpg"]).
Proof.
  eapply (unreadable_template_raises (S:=LinAlg.reference) (R:=nearest_neighbour)
            (O:=plain_host) (gradient 20 30) "t/show2.jpg" "in/show2.png" DEST_COORDINATES2
            (Some true) unreadable_second); reflexivity.
Defined.

Lemma result_of_two_composites :
  (true = true <-> ["in/show.png"; "in/show3.png"] <> []) /\ (true = true <-> "" = "").
Proof.
  apply (result_is_consistent (S:=LinAlg.reference) (R:=nearest_neighbour) (O:=plain_host)
           DEST_COORDINATES [0; 0; 1; 1; 2; 2; 3; 3] DEST_COORDINATES3 "in/a.png" "in" "t"
           two_folders true ["in/show.png"; "in/show3.png"] "").
  vm_compute. reflexivity.
Defined.

Lemma print_of_gradient :
  (@remove_error plain_host "in/output.png" = None ->
   @file_at plain_host
     (snd (@process_image_with LinAlg.reference nearest_neighbour plain_host DEST_COORDINATES
             DEST_COORDINATES2 DEST_COORDINATES3 "in/a.png" "in" "t" two_folders))
     "in/output.png" = None) /\
  (@realpath plain_host "in/print.png" ∉
     map (@realpath plain_host) ["in/output.png"; "in/show.png"; "in/show2.png"; "in/show3.png"] ->
   exists canvas,
     @file_at plain_host
       (snd (@process_image_with LinAlg.reference nearest_neighbour plain_host
               DEST_COORDINATES DEST_COORDINATES2 DEST_COORDINATES3 "in/a.png" "in" "t"
               two_folders))
       "in/print.png" = Some (ImageFile canvas (Some (300, 300))) /\
     size canvas = (3900, 5700)).
Proof.
  apply (completed_run_leaves_the_print (S:=LinAlg.reference) (R:=nearest_neighbour)
           (O:=plain_host) DEST_COORDINATES DEST_COORDINATES2 DEST_COORDINATES3 "in/a.png" "in"
           "t" two_folders (true, ["in/show.png"; "in/show2.png"; "in/show3.png"], ""));
    [vm_compute; reflexivity | reflexivity | reflexivity].
Defined.
